(** * Transportation-Forms: token service, permission resolver,
      authorization gate and audit recorder

    A shallow embedding of [backend/auth/jwt_handler.py],
    [backend/auth/permissions.py], [backend/auth/authorization.py],
    [backend/auth/dependencies.py] and of [FormService._audit_log]
    ([backend/services/forms.py]), followed by the properties that the
    specification states about them.

    Conventions.
    - Python exceptions are values of [exn]; a computation that may raise
      returns an [outcome].
    - Instants and durations are integers counting microseconds (the
      resolution of [datetime] and [timedelta]); the floats produced by
      [datetime.timestamp()] are idealised as exact.  The clock is read
      once per call and passed as the parameter [now].
    - Permission identifiers are strings: [Permission] is a [str]
      enumeration, whose members compare and hash like their values. *)

From Stdlib Require Import Ascii.
From stdpp Require Import gmap strings list.

#[local] Set Warnings "-clear-no-such-hyp".

Local Open Scope Z_scope.

(** ** Python values, exceptions and outcomes *)

(** JSON values as they occur in token claims. *)
Inductive value :=
  | VNull
  | VStr (s : string)
  | VNum (micros : Z)
  | VList (items : list string).

#[global] Instance value_eq_dec : EqDecision value.
Proof. solve_decision. Defined.

Abbreviation claims := (gmap string value).

(** Exceptions of the PyJWT library ([jwt.exceptions]), all subclasses of
    [PyJWTError]. *)
Inductive jwt_error :=
  | DecodeError
  | InvalidAlgorithmError
  | InvalidSignatureError
  | ExpiredSignatureError
  | ImmatureSignatureError
  | InvalidIssuedAtError
  | InvalidAudienceError
  | InvalidIssuerError
  | MissingRequiredClaimError (claim : string).

(** The [ValueError]s raised by this repository, one constructor per
    message, named after the failure kinds of the specification. *)
Inductive value_error :=
  | Expired                                        (* Token has expired *)
  | BadAudience                                    (* Invalid token audience *)
  | BadIssuer                                      (* Invalid token issuer *)
  | ValidationFailed (e : jwt_error)               (* Token validation failed: e *)
  | TypeMismatch (expected : string) (got : value) (* Invalid token type. Expected .., got .. *)
  | InvalidRefreshToken                            (* Invalid refresh token *)
  | SubjectMismatch                                (* Refresh token user ID mismatch *)
  | UnknownResource (resource : string)            (* Unknown resource: .. *)
  | UnknownAction (action resource : string).      (* Unknown action '..' for resource '..' *)

(** The [detail] of an [HTTPException]. *)
Inductive http_detail :=
  | InvalidCredentials
  | DetailOf (e : value_error)
  | ConfigurationError (e : value_error)
  | InsufficientPermissions (required : string)
  | RequiredOneOf (permissions : list string)
  | RequiredAllOf (permissions : list string).

Inductive db_error :=
  | OperationalError
  | IntegrityError.

Inductive exn :=
  | PyJWTError (e : jwt_error)
  | ValueError (e : value_error)
  | TypeError
  | SQLAlchemyError (e : db_error)
  | HTTPException (status_code : Z) (detail : http_detail).

Inductive outcome (A : Type) :=
  | Return (a : A)
  | Raise (e : exn).
Arguments Return {A} a.
Arguments Raise {A} e.

Definition bind {A B} (m : outcome A) (k : A -> outcome B) : outcome B :=
  match m with
  | Return a => k a
  | Raise e => Raise e
  end.

Definition returns {A} (m : outcome A) : bool :=
  match m with
  | Return _ => true
  | Raise _ => false
  end.

Declare Scope py_scope.
Delimit Scope py_scope with py.
Notation "x <- m ;; k" := (bind m (fun x => k))
  (at level 100, m at next level, right associativity) : py_scope.
Notation "m ;;; k" := (bind m (fun _ => k))
  (at level 100, right associativity) : py_scope.

(** [d.get(k, dflt)] *)
Definition dict_get (d : claims) (k : string) (dflt : value) : value :=
  default dflt (d !! k).

(** Truthiness of a JSON value. *)
Definition truthy (v : value) : bool :=
  match v with
  | VNull => false
  | VStr s => negb (bool_decide (s = ""%string))
  | VNum n => negb (n =? 0)
  | VList l => negb (bool_decide (l = []))
  end.

Definition MICROS : Z := 1000000.

(** [int(x)]: a number is truncated towards zero, a string is read as a
    signed decimal literal, anything else is a [TypeError]. *)
Inductive int_result :=
  | IntOk (n : Z)
  | IntValueError
  | IntTypeError.

Definition digit_of (c : Ascii.ascii) : option Z :=
  let n := Z.of_nat (Ascii.nat_of_ascii c) in
  if (48 <=? n) && (n <=? 57) then Some (n - 48) else None.

Fixpoint digits_value (acc : Z) (s : string) : option Z :=
  match s with
  | EmptyString => Some acc
  | String c rest =>
      match digit_of c with
      | Some d => digits_value (10 * acc + d) rest
      | None => None
      end
  end.

Definition int_of_literal (s : string) : option Z :=
  match s with
  | EmptyString => None
  | String "-"%char (String _ _ as ds) => Z.opp <$> digits_value 0 ds
  | String "+"%char (String _ _ as ds) => digits_value 0 ds
  | _ => digits_value 0 s
  end.

Definition py_int (v : value) : int_result :=
  match v with
  | VNum n => IntOk (Z.quot n MICROS)
  | VStr s => match int_of_literal s with
              | Some n => IntOk n
              | None => IntValueError
              end
  | VNull | VList _ => IntTypeError
  end.

(** ** The PyJWT library ([jwt.encode], [jwt.decode])

    The library is an external collaborator.  Its contract is modelled
    symbolically: a token string either does not parse as a compact
    serialisation ([Opaque]) or carries a header algorithm, a claim set
    and a signature; a signature records the key pair, the algorithm and
    the claim set it was computed over, and verifies under the public key
    of that pair for exactly that content. *)
Module jwt.

Inductive private_key := PrivateKey (key_pair : N).
Inductive public_key := PublicKey (key_pair : N).

Record signature := Signature {
  signed_with : N;
  signed_alg : string;
  signed_claims : claims;
}.

Record jws := Jws {
  jws_alg : string;
  jws_payload : claims;
  jws_signature : signature;
}.

Inductive token :=
  | Opaque (text : string)
  | Compact (j : jws).

#[global] Instance signature_eq_dec : EqDecision signature.
Proof. solve_decision. Defined.
#[global] Instance jws_eq_dec : EqDecision jws.
Proof. solve_decision. Defined.
#[global] Instance token_eq_dec : EqDecision token.
Proof. solve_decision. Defined.

Definition encode (payload : claims) (key : private_key) (algorithm : string) : token :=
  let 'PrivateKey kp := key in
  Compact (Jws algorithm payload (Signature kp algorithm payload)).

Definition verify_signature (key : public_key) (j : jws) : bool :=
  let 'PublicKey kp := key in
  bool_decide (jws_signature j = Signature kp (jws_alg j) (jws_payload j)).

Definition validate_iat (payload : claims) (now : Z) : outcome unit :=
  match payload !! "iat"%string with
  | None => Return tt
  | Some v =>
      match py_int v with
      | IntOk iat =>
          if now <? iat * MICROS
          then Raise (PyJWTError ImmatureSignatureError)
          else Return tt
      | IntValueError => Raise (PyJWTError InvalidIssuedAtError)
      | IntTypeError => Raise TypeError
      end
  end.

Definition validate_nbf (payload : claims) (now : Z) : outcome unit :=
  match payload !! "nbf"%string with
  | None => Return tt
  | Some v =>
      match py_int v with
      | IntOk nbf =>
          if now <? nbf * MICROS
          then Raise (PyJWTError ImmatureSignatureError)
          else Return tt
      | IntValueError => Raise (PyJWTError DecodeError)
      | IntTypeError => Raise TypeError
      end
  end.

Definition validate_exp (payload : claims) (now : Z) : outcome unit :=
  match payload !! "exp"%string with
  | None => Return tt
  | Some v =>
      match py_int v with
      | IntOk exp =>
          if exp * MICROS <=? now
          then Raise (PyJWTError ExpiredSignatureError)
          else Return tt
      | IntValueError => Raise (PyJWTError DecodeError)
      | IntTypeError => Raise TypeError
      end
  end.

Definition validate_iss (payload : claims) (issuer : string) : outcome unit :=
  match payload !! "iss"%string with
  | None => Raise (PyJWTError (MissingRequiredClaimError "iss"))
  | Some v =>
      if bool_decide (v = VStr issuer)
      then Return tt
      else Raise (PyJWTError InvalidIssuerError)
  end.

Definition validate_aud (payload : claims) (audience : string) : outcome unit :=
  match payload !! "aud"%string with
  | None => Raise (PyJWTError (MissingRequiredClaimError "aud"))
  | Some v =>
      if negb (truthy v)
      then Raise (PyJWTError (MissingRequiredClaimError "aud"))
      else
        match v with
        | VStr s =>
            if bool_decide (s = audience)
            then Return tt
            else Raise (PyJWTError InvalidAudienceError)
        | VList l =>
            if bool_decide (audience ∈ l)
            then Return tt
            else Raise (PyJWTError InvalidAudienceError)
        | _ => Raise (PyJWTError InvalidAudienceError)
        end
  end.

(** [jwt.decode(token, key, algorithms=.., audience=.., issuer=..,
    options={"verify_exp": ..})]: parse, check the algorithm and the
    signature, then the registered claims in the library's order
    (iat, nbf, exp, iss, aud). *)
Definition decode (tok : token) (key : public_key) (algorithms : list string)
    (audience issuer : string) (verify_exp : bool) (now : Z) : outcome claims :=
  match tok with
  | Opaque _ => Raise (PyJWTError DecodeError)
  | Compact j =>
      if negb (bool_decide (jws_alg j ∈ algorithms))
      then Raise (PyJWTError InvalidAlgorithmError)
      else if negb (verify_signature key j)
      then Raise (PyJWTError InvalidSignatureError)
      else
        let payload := jws_payload j in
        (validate_iat payload now ;;;
         validate_nbf payload now ;;;
         (if verify_exp then validate_exp payload now else Return tt) ;;;
         validate_iss payload issuer ;;;
         validate_aud payload audience ;;;
         Return payload)%py
  end.

End jwt.

(** ** [backend/auth/keys.py]: the key pair loaded at import time *)

Definition PRIVATE_KEY : jwt.private_key := jwt.PrivateKey 0.
Definition PUBLIC_KEY : jwt.public_key := jwt.PublicKey 0.

(** ** [backend/auth/jwt_handler.py] *)

Definition ACCESS_TOKEN_EXPIRY : Z := 30 * 60.
Definition REFRESH_TOKEN_EXPIRY : Z := 7 * 24 * 60 * 60.
Definition ALGORITHM : string := "RS256".
Definition TOKEN_ISSUER : string := "transportation-forms-api".
Definition TOKEN_AUDIENCE : string := "transportation-forms-web".

(** [timedelta(seconds=n)] *)
Definition timedelta_seconds (n : Z) : Z := n * MICROS.

Record TokenData := mkTokenData {
  sub : value;
  email : value;
  name : value;
  roles : value;
  token_type : string;
}.

#[global] Instance TokenData_eq_dec : EqDecision TokenData.
Proof. solve_decision. Defined.

Module JWTHandler.

Definition generate_access_token (user_id email name : string) (roles : list string)
    (expires_delta : option Z) (now : Z) : jwt.token :=
  let expires_delta :=
    match expires_delta with
    | None => timedelta_seconds ACCESS_TOKEN_EXPIRY
    | Some d => d
    end in
  let expire := now + expires_delta in
  let payload : claims :=
    list_to_map [
      ("sub"%string, VStr user_id);
      ("email"%string, VStr email);
      ("name"%string, VStr name);
      ("roles"%string, VList roles);
      ("iss"%string, VStr TOKEN_ISSUER);
      ("aud"%string, VStr TOKEN_AUDIENCE);
      ("exp"%string, VNum expire);
      ("iat"%string, VNum now);
      ("type"%string, VStr "access")
    ] in
  jwt.encode payload PRIVATE_KEY ALGORITHM.

Definition generate_refresh_token (user_id : string)
    (expires_delta : option Z) (now : Z) : jwt.token :=
  let expires_delta :=
    match expires_delta with
    | None => timedelta_seconds REFRESH_TOKEN_EXPIRY
    | Some d => d
    end in
  let expire := now + expires_delta in
  let payload : claims :=
    list_to_map [
      ("sub"%string, VStr user_id);
      ("iss"%string, VStr TOKEN_ISSUER);
      ("aud"%string, VStr TOKEN_AUDIENCE);
      ("exp"%string, VNum expire);
      ("iat"%string, VNum now);
      ("type"%string, VStr "refresh")
    ] in
  jwt.encode payload PRIVATE_KEY ALGORITHM.

(** The body of the [try] block of [validate_token]. *)
Definition validate_token_body (token : jwt.token) (token_type : string) (now : Z)
    : outcome (option TokenData) :=
  (payload <- jwt.decode token PUBLIC_KEY [ALGORITHM] TOKEN_AUDIENCE TOKEN_ISSUER true now ;;
   if bool_decide (dict_get payload "type" VNull ≠ VStr token_type)
   then Raise (ValueError (TypeMismatch token_type (dict_get payload "type" VNull)))
   else if bool_decide (token_type = "refresh"%string)
   then Return (Some (mkTokenData (dict_get payload "sub" VNull)
                        (VStr "") (VStr "") (VList []) token_type))
   else Return (Some (mkTokenData (dict_get payload "sub" VNull)
                        (dict_get payload "email" VNull)
                        (dict_get payload "name" VNull)
                        (dict_get payload "roles" (VList []))
                        token_type)))%py.

Definition validate_token (token : jwt.token) (token_type : string) (now : Z)
    : outcome (option TokenData) :=
  match validate_token_body token token_type now with
  | Raise (PyJWTError ExpiredSignatureError) => Raise (ValueError Expired)
  | Raise (PyJWTError InvalidAudienceError) => Raise (ValueError BadAudience)
  | Raise (PyJWTError InvalidIssuerError) => Raise (ValueError BadIssuer)
  | Raise (PyJWTError e) => Raise (ValueError (ValidationFailed e))
  | r => r
  end.

Definition refresh_access_token (refresh_token : jwt.token)
    (user_id email name : string) (roles : list string) (now : Z)
    : outcome jwt.token :=
  (token_data <- validate_token refresh_token "refresh" now ;;
   match token_data with
   | None => Raise (ValueError InvalidRefreshToken)
   | Some token_data =>
       if bool_decide (sub token_data ≠ VStr user_id)
       then Raise (ValueError SubjectMismatch)
       else Return (generate_access_token user_id email name roles None now)
   end)%py.



End JWTHandler.

(** ** [backend/auth/permissions.py] *)

Module Permission.
Definition FORM_CREATE : string := "form:create".
Definition FORM_READ : string := "form:read".
Definition FORM_EDIT : string := "form:edit".
Definition FORM_DELETE : string := "form:delete".
Definition FORM_ARCHIVE : string := "form:archive".
Definition FORM_SUBMIT_FOR_REVIEW : string := "form:submit_for_review".
Definition FORM_REVIEW : string := "form:review".
Definition FORM_APPROVE : string := "form:approve".
Definition FORM_PUBLISH : string := "form:publish".
Definition BUSINESS_AREA_CREATE : string := "business_area:create".
Definition BUSINESS_AREA_READ : string := "business_area:read".
Definition BUSINESS_AREA_EDIT : string := "business_area:edit".
Definition BUSINESS_AREA_DELETE : string := "business_area:delete".
Definition BUSINESS_AREA_MANAGE : string := "business_area:manage".
Definition CATEGORY_CREATE : string := "category:create".
Definition CATEGORY_READ : string := "category:read".
Definition CATEGORY_EDIT : string := "category:edit".
Definition CATEGORY_DELETE : string := "category:delete".
Definition USER_CREATE : string := "user:create".
Definition USER_READ : string := "user:read".
Definition USER_EDIT : string := "user:edit".
Definition USER_DELETE : string := "user:delete".
Definition USER_MANAGE_ROLES : string := "user:manage_roles".
Definition USER_MANAGE_PERMISSIONS : string := "user:manage_permissions".
Definition ROLE_CREATE : string := "role:create".
Definition ROLE_READ : string := "role:read".
Definition ROLE_EDIT : string := "role:edit".
Definition ROLE_DELETE : string := "role:delete".
Definition AUDIT_LOG_VIEW : string := "audit_log:view".
Definition AUDIT_LOG_EXPORT : string := "audit_log:export".
Definition REPORT_VIEW : string := "report:view".
Definition SYSTEM_CONFIG : string := "system:config".
Definition SYSTEM_HEALTH : string := "system:health".
End Permission.

Definition get_inherited_permissions (permissions : list string) : gset string :=
  let result : gset string := list_to_set permissions in
  let result :=
    if bool_decide (Permission.FORM_DELETE ∈ result)
       || bool_decide ("form:delete"%string ∈ permissions)
    then result ∪ {[ Permission.FORM_EDIT ]} else result in
  let result :=
    if bool_decide (Permission.USER_MANAGE_ROLES ∈ result)
       || bool_decide ("user:manage_roles"%string ∈ permissions)
    then result ∪ {[ Permission.USER_READ ]} else result in
  let result :=
    if bool_decide (Permission.BUSINESS_AREA_MANAGE ∈ result)
       || bool_decide ("business_area:manage"%string ∈ permissions)
    then result ∪ {[ Permission.BUSINESS_AREA_READ ]} else result in
  result.

Definition RESOURCE_ACTION_PERMISSIONS : gmap string (gmap string string) :=
  list_to_map [
    ("forms"%string, list_to_map [
       ("create"%string, Permission.FORM_CREATE);
       ("read"%string, Permission.FORM_READ);
       ("update"%string, Permission.FORM_EDIT);
       ("delete"%string, Permission.FORM_DELETE);
       ("archive"%string, Permission.FORM_ARCHIVE);
       ("submit"%string, Permission.FORM_SUBMIT_FOR_REVIEW);
       ("review"%string, Permission.FORM_REVIEW);
       ("approve"%string, Permission.FORM_APPROVE);
       ("publish"%string, Permission.FORM_PUBLISH)]);
    ("business_areas"%string, list_to_map [
       ("create"%string, Permission.BUSINESS_AREA_CREATE);
       ("read"%string, Permission.BUSINESS_AREA_READ);
       ("update"%string, Permission.BUSINESS_AREA_EDIT);
       ("delete"%string, Permission.BUSINESS_AREA_DELETE);
       ("manage"%string, Permission.BUSINESS_AREA_MANAGE)]);
    ("categories"%string, list_to_map [
       ("create"%string, Permission.CATEGORY_CREATE);
       ("read"%string, Permission.CATEGORY_READ);
       ("update"%string, Permission.CATEGORY_EDIT);
       ("delete"%string, Permission.CATEGORY_DELETE)]);
    ("users"%string, list_to_map [
       ("create"%string, Permission.USER_CREATE);
       ("read"%string, Permission.USER_READ);
       ("update"%string, Permission.USER_EDIT);
       ("delete"%string, Permission.USER_DELETE);
       ("manage_roles"%string, Permission.USER_MANAGE_ROLES);
       ("manage_permissions"%string, Permission.USER_MANAGE_PERMISSIONS)]);
    ("roles"%string, list_to_map [
       ("create"%string, Permission.ROLE_CREATE);
       ("read"%string, Permission.ROLE_READ);
       ("update"%string, Permission.ROLE_EDIT);
       ("delete"%string, Permission.ROLE_DELETE)]);
    ("audit"%string, list_to_map [
       ("view"%string, Permission.AUDIT_LOG_VIEW);
       ("export"%string, Permission.AUDIT_LOG_EXPORT)]);
    ("reports"%string, list_to_map [
       ("view"%string, Permission.REPORT_VIEW)]);
    ("system"%string, list_to_map [
       ("config"%string, Permission.SYSTEM_CONFIG);
       ("health"%string, Permission.SYSTEM_HEALTH)])
  ].

Definition get_permission_for_resource_action (resource action : string)
    : outcome string :=
  match RESOURCE_ACTION_PERMISSIONS !! resource with
  | None => Raise (ValueError (UnknownResource resource))
  | Some actions =>
      match actions !! action with
      | None => Raise (ValueError (UnknownAction action resource))
      | Some permission => Return permission
      end
  end.

(** ** [backend/models.py] and the database session

    Only the columns read or written by the modelled functions are kept.
    A session holds the committed tables, the audit rows added but not
    yet committed, and a fault plan: one flag per coming store operation,
    telling whether that operation fails. *)

Record User := mkUser {
  u_id : string;
  u_email : string;
}.

(** The JSON column [Role.permissions]: an array of permission strings, a
    mapping keyed by permission strings, or any other JSON value. *)
Inductive permissions_column :=
  | PermList (l : list string)
  | PermDict (d : gmap string value)
  | PermOther.

Record Role := mkRole {
  r_name : string;
  r_permissions : permissions_column;
  r_is_active : bool;
  r_deleted_at : option Z;
}.

Record UserRole := mkUserRole {
  ur_user_id : string;
  ur_role_id : string;
  ur_deleted_at : option Z;
}.

#[global] Instance UserRole_eq_dec : EqDecision UserRole.
Proof. solve_decision. Defined.

Inductive audit_value :=
  | ANone
  | ABool (b : bool)
  | AStr (s : string)
  | AJson (v : value).

Record AuditLog := mkAuditLog {
  a_entity_type : string;
  a_entity_id : string;
  a_action : string;
  a_user_id : value;
  a_old_values : option (gmap string audit_value);
  a_new_values : option (gmap string audit_value);
}.

Record Session := mkSession {
  users : list User;
  roles_table : gmap string Role;
  user_roles : list UserRole;
  audit_log : list AuditLog;
  pending : list AuditLog;
  faults : list bool;
}.

Definition DB (A : Type) : Type := Session -> outcome A * Session.

Definition db_bind {A B} (m : DB A) (k : A -> DB B) : DB B :=
  fun s =>
    match m s with
    | (Return a, s') => k a s'
    | (Raise e, s') => (Raise e, s')
    end.

Definition db_ret {A} (a : A) : DB A := fun s => (Return a, s).

(** [try: body except Exception: handler] *)
Definition try_except {A} (body : DB A) (handler : exn -> DB A) : DB A :=
  fun s =>
    match body s with
    | (Return a, s') => (Return a, s')
    | (Raise e, s') => handler e s'
    end.

Definition next_fault (s : Session) : bool * Session :=
  match faults s with
  | [] => (false, s)
  | f :: rest =>
      (f, mkSession (users s) (roles_table s) (user_roles s)
            (audit_log s) (pending s) rest)
  end.

Definition user_matches (user_id : value) (u : User) : bool :=
  bool_decide (VStr (u_id u) = user_id).

(** [db.query(User).filter(User.id == user_id).first()], as a pure read. *)
Definition first_user (user_id : value) (s : Session) : option User :=
  find (user_matches user_id) (users s).

(** [user_role.role]: the related row of the [roles] table, if any. *)
Definition role_of (s : Session) (ur : UserRole) : option Role :=
  roles_table s !! ur_role_id ur.

(** The same query when its failure is observable. *)
Definition query_first_user (user_id : value) : DB (option User) :=
  fun s =>
    let '(fails, s) := next_fault s in
    if fails then (Raise (SQLAlchemyError OperationalError), s)
    else (Return (first_user user_id s), s).

(** [db.add(row)] *)
Definition db_add (row : AuditLog) : DB unit :=
  fun s =>
    let '(fails, s) := next_fault s in
    if fails then (Raise (SQLAlchemyError OperationalError), s)
    else (Return tt,
          mkSession (users s) (roles_table s) (user_roles s)
            (audit_log s) (pending s ++ [row]) (faults s)).

(** The foreign key [audit_log.user_id -> users.id] (nullable). *)
Definition fk_user_ok (s : Session) (row : AuditLog) : bool :=
  match a_user_id row with
  | VNull => true
  | user_id => bool_decide (is_Some (first_user user_id s))
  end.

(** [db.commit()]: flushes the pending rows, which the store accepts only
    if they satisfy the foreign key. *)
Definition db_commit : DB unit :=
  fun s =>
    let '(fails, s) := next_fault s in
    if fails then (Raise (SQLAlchemyError OperationalError), s)
    else if forallb (fk_user_ok s) (pending s)
    then (Return tt,
          mkSession (users s) (roles_table s) (user_roles s)
            (audit_log s ++ pending s) [] (faults s))
    else (Raise (SQLAlchemyError IntegrityError), s).

(** [db.rollback()]: discards what was added and not committed.  Like the
    other operations of the store it can fail, and then raises and leaves
    the session as it was. *)
Definition db_rollback : DB unit :=
  fun s =>
    let '(fails, s) := next_fault s in
    if fails then (Raise (SQLAlchemyError OperationalError), s)
    else (Return tt,
          mkSession (users s) (roles_table s) (user_roles s)
            (audit_log s) [] (faults s)).

(** ** [backend/auth/authorization.py] *)

(** The loop body of [get_user_permissions]. *)
Definition add_role_permissions (db : Session) (all_permissions : gset string)
    (user_role : UserRole) : gset string :=
  match role_of db user_role with
  | Some role =>
      if r_is_active role && negb (bool_decide (is_Some (r_deleted_at role)))
      then
        match r_permissions role with
        | PermList l => all_permissions ∪ list_to_set l
        | PermDict d => all_permissions ∪ dom d
        | PermOther => all_permissions
        end
      else all_permissions
  | None => all_permissions
  end.

(** [db.query(UserRole).filter(UserRole.user_id == user_id,
    UserRole.deleted_at.is_(None)).all()] *)
Definition active_user_roles (user_id : value) (db : Session) : list UserRole :=
  filter (fun ur => VStr (ur_user_id ur) = user_id ∧ ur_deleted_at ur = None)
         (user_roles db).

Definition get_user_permissions (user_id : value) (db : Session) : gset string :=
  match first_user user_id db with
  | None => ∅
  | Some _ =>
      let all_permissions :=
        foldl (add_role_permissions db) ∅ (active_user_roles user_id db) in
      get_inherited_permissions (elements all_permissions)
  end.

Definition has_permission (user_id : value) (permission : string) (db : Session) : bool :=
  bool_decide (permission ∈ get_user_permissions user_id db).

Definition has_any_permission (user_id : value) (permissions : list string)
    (db : Session) : bool :=
  let user_permissions := get_user_permissions user_id db in
  existsb (fun perm => bool_decide (perm ∈ user_permissions)) permissions.

Definition has_all_permissions (user_id : value) (permissions : list string)
    (db : Session) : bool :=
  let user_permissions := get_user_permissions user_id db in
  forallb (fun perm => bool_decide (perm ∈ user_permissions)) permissions.

(** The permissions whose successful checks are logged. *)
Definition SENSITIVE_PERMISSIONS : list string := [
  Permission.USER_MANAGE_ROLES;
  Permission.USER_MANAGE_PERMISSIONS;
  Permission.ROLE_CREATE;
  Permission.ROLE_EDIT;
  Permission.ROLE_DELETE;
  Permission.SYSTEM_CONFIG;
  Permission.AUDIT_LOG_EXPORT
].

Definition opt_str (o : option string) : audit_value :=
  match o with
  | Some s => AStr s
  | None => ANone
  end.

Definition permission_check_entry (user_id : value) (permission : string)
    (allowed : bool) (resource action : option string)
    (details : option (gmap string audit_value)) : AuditLog :=
  mkAuditLog "permission" permission "permission_check" user_id
    (Some ∅)
    (Some (default ∅ details ∪
           list_to_map [
             ("permission"%string, AStr permission);
             ("resource"%string, opt_str resource);
             ("action"%string, opt_str action);
             ("allowed"%string, ABool allowed)])).

(** The [try] block of [log_permission_check] with its handler: the call
    into the audit recorder. *)
Definition record_permission_check (user_id : value) (permission : string)
    (allowed : bool) (resource action : option string)
    (details : option (gmap string audit_value)) : DB unit :=
  try_except
    (db_bind (query_first_user user_id) (fun user_exists =>
       match user_exists with
       | None => db_ret tt
       | Some _ =>
           db_bind (db_add (permission_check_entry user_id permission allowed
                              resource action details)) (fun _ =>
           db_commit)
       end))
    (fun _ => db_rollback).

Definition log_permission_check (user_id : value) (permission : string)
    (allowed : bool) (resource action : option string)
    (details : option (gmap string audit_value)) (db : option Session)
    : outcome unit * option Session :=
  match db with
  | None => (Return tt, None)
  | Some s =>
      if negb allowed || bool_decide (permission ∈ SENSITIVE_PERMISSIONS)
      then
        let '(r, s') := record_permission_check user_id permission allowed
                          resource action details s in
        (r, Some s')
      else (Return tt, Some s)
  end.

(** The session object after a call that was given [Some db]. *)
Definition session_after (db : Session) (r : outcome unit * option Session) : Session :=
  default db (snd r).

Definition HTTP_401_UNAUTHORIZED : Z := 401.
Definition HTTP_403_FORBIDDEN : Z := 403.
Definition HTTP_500_INTERNAL_SERVER_ERROR : Z := 500.

Definition require_permission (resource action : string)
    (user : TokenData) (db : Session) : outcome TokenData * Session :=
  match get_permission_for_resource_action resource action with
  | Raise (ValueError e) =>
      (Raise (HTTPException HTTP_500_INTERNAL_SERVER_ERROR (ConfigurationError e)), db)
  | Raise e => (Raise e, db)
  | Return permission =>
      let has_perm := has_permission (sub user) permission db in
      let logged := log_permission_check (sub user) permission has_perm
                      (Some resource) (Some action) None (Some db) in
      let db := session_after db logged in
      match fst logged with
      | Raise e => (Raise e, db)
      | Return _ =>
          if negb has_perm
          then (Raise (HTTPException HTTP_403_FORBIDDEN
                         (InsufficientPermissions (resource +:+ ":" +:+ action))), db)
          else (Return user, db)
      end
  end.

Definition require_any_permission (permissions : list string)
    (user : TokenData) (db : Session) : outcome TokenData * Session :=
  let has_perm := has_any_permission (sub user) permissions db in
  if negb has_perm
  then
    let logged := log_permission_check (sub user) (String.concat "|" permissions)
                    false None None None (Some db) in
    let db := session_after db logged in
    match fst logged with
    | Raise e => (Raise e, db)
    | Return _ => (Raise (HTTPException HTTP_403_FORBIDDEN (RequiredOneOf permissions)), db)
    end
  else
    let logged := log_permission_check (sub user) (String.concat "|" permissions)
                    true None None None (Some db) in
    let db := session_after db logged in
    match fst logged with
    | Raise e => (Raise e, db)
    | Return _ => (Return user, db)
    end.

Definition require_all_permissions (permissions : list string)
    (user : TokenData) (db : Session) : outcome TokenData * Session :=
  let has_perm := has_all_permissions (sub user) permissions db in
  if negb has_perm
  then
    let logged := log_permission_check (sub user) (String.concat "&" permissions)
                    false None None None (Some db) in
    let db := session_after db logged in
    match fst logged with
    | Raise e => (Raise e, db)
    | Return _ => (Raise (HTTPException HTTP_403_FORBIDDEN (RequiredAllOf permissions)), db)
    end
  else
    let logged := log_permission_check (sub user) (String.concat "&" permissions)
                    true None None None (Some db) in
    let db := session_after db logged in
    match fst logged with
    | Raise e => (Raise e, db)
    | Return _ => (Return user, db)
    end.

(** ** [backend/services/forms.py] *)

Module FormService.

Definition _audit_log (entity_type entity_id action : string) (user_id : value)
    (old_values new_values : option (gmap string audit_value)) : DB unit :=
  try_except
    (db_bind (db_add (mkAuditLog entity_type entity_id action user_id
                        old_values new_values)) (fun _ =>
     db_commit))
    (fun _ => db_rollback).

End FormService.

(** ** [backend/auth/dependencies.py] *)

Definition lower_ascii (c : ascii) : ascii :=
  let n := nat_of_ascii c in
  if ((65 <=? n) && (n <=? 90))%nat then ascii_of_nat (n + 32) else c.

(** [str.lower()] *)
Fixpoint lower (s : string) : string :=
  match s with
  | EmptyString => EmptyString
  | String c rest => String (lower_ascii c) (lower rest)
  end.

(** [os.getenv("ENVIRONMENT", "production").lower()], given the value of
    the environment variable when it is set. *)
Definition ENVIRONMENT (env : option string) : string :=
  lower (default "production"%string env).

Definition IS_DEVELOPMENT (env : option string) : bool :=
  bool_decide (ENVIRONMENT env = "development"%string).

Definition demo_user : TokenData :=
  mkTokenData (VStr "550e8400-e29b-41d4-a716-446655440000")
    (VStr "demo@example.com") (VStr "Demo User") (VList ["admin"%string]) "access".

Definition get_current_user (env : option string) (credentials : jwt.token)
    (now : Z) : outcome TokenData :=
  let token := credentials in
  if IS_DEVELOPMENT env && bool_decide (token = jwt.Opaque "demo-token")
  then Return demo_user
  else
    match JWTHandler.validate_token token "access" now with
    | Return None => Raise (HTTPException HTTP_401_UNAUTHORIZED InvalidCredentials)
    | Return (Some token_data) => Return token_data
    | Raise (ValueError e) => Raise (HTTPException HTTP_401_UNAUTHORIZED (DetailOf e))
    | Raise e => Raise e
    end.

(** ** Vocabulary of the specification *)

(** A role grants a permission when its [permissions] column lists it. *)
Definition role_grants (role : Role) (permission : string) : Prop :=
  match r_permissions role with
  | PermList l => permission ∈ l
  | PermDict d => permission ∈ dom d
  | PermOther => False
  end.

(** A (resource, action) pair is registered with a permission. *)
Definition registered (resource action permission : string) : Prop :=
  exists actions,
    RESOURCE_ACTION_PERMISSIONS !! resource = Some actions
    /\ actions !! action = Some permission.


(** The instant before which a token issued at [now] with lifetime
    [expires_delta] is accepted: the library compares the clock with the
    expiry truncated to whole seconds. *)
Definition expiry_instant (now : Z) (expires_delta : Z) : Z :=
  Z.quot (now + expires_delta) MICROS * MICROS.

(** The lifetime of a token issued with the optional [expires_delta]. *)
Definition lifetime_of (default_seconds : Z) (expires_delta : option Z) : Z :=
  default (timedelta_seconds default_seconds) expires_delta.


(** Tokens signed with the service key on which the decoder and the two
    functions disagree with a reading of "expired" by the [exp] claim
    alone.  All expire, if they do, one second after the epoch. *)






(** ** The store of the test fixtures

    [admin_user] and [reviewer_user] of [tests/test_authorization.py]:
    two users, each assigned the role of [DEFAULT_ROLES] of that name. *)

Definition ADMIN_PERMISSIONS : list string := [
  Permission.FORM_CREATE; Permission.FORM_READ; Permission.FORM_EDIT;
  Permission.FORM_DELETE; Permission.FORM_ARCHIVE;
  Permission.FORM_SUBMIT_FOR_REVIEW; Permission.FORM_REVIEW;
  Permission.FORM_APPROVE; Permission.FORM_PUBLISH;
  Permission.BUSINESS_AREA_CREATE; Permission.BUSINESS_AREA_READ;
  Permission.BUSINESS_AREA_EDIT; Permission.BUSINESS_AREA_DELETE;
  Permission.BUSINESS_AREA_MANAGE;
  Permission.CATEGORY_CREATE; Permission.CATEGORY_READ;
  Permission.CATEGORY_EDIT; Permission.CATEGORY_DELETE;
  Permission.USER_CREATE; Permission.USER_READ; Permission.USER_EDIT;
  Permission.USER_DELETE; Permission.USER_MANAGE_ROLES;
  Permission.USER_MANAGE_PERMISSIONS;
  Permission.ROLE_CREATE; Permission.ROLE_READ; Permission.ROLE_EDIT;
  Permission.ROLE_DELETE;
  Permission.AUDIT_LOG_VIEW; Permission.AUDIT_LOG_EXPORT; Permission.REPORT_VIEW;
  Permission.SYSTEM_CONFIG; Permission.SYSTEM_HEALTH
].

Definition REVIEWER_PERMISSIONS : list string := [
  Permission.FORM_READ; Permission.FORM_REVIEW; Permission.FORM_APPROVE;
  Permission.BUSINESS_AREA_READ;
  Permission.CATEGORY_READ;
  Permission.AUDIT_LOG_VIEW
].

Definition admin_role : Role := mkRole "admin" (PermList ADMIN_PERMISSIONS) true None.
Definition reviewer_role : Role :=
  mkRole "reviewer" (PermList REVIEWER_PERMISSIONS) true None.

Definition admin_assignment : UserRole :=
  mkUserRole "a0000000-0000-4000-8000-000000000001" "role-admin" None.
Definition reviewer_assignment : UserRole :=
  mkUserRole "a0000000-0000-4000-8000-000000000002" "role-reviewer" None.

Definition fixture_store : Session :=
  mkSession
    [mkUser "a0000000-0000-4000-8000-000000000001" "admin@test.com";
     mkUser "a0000000-0000-4000-8000-000000000002" "reviewer@test.com"]
    (list_to_map [("role-admin"%string, admin_role);
                  ("role-reviewer"%string, reviewer_role)])
    [admin_assignment; reviewer_assignment]
    [] [] [].

Definition token_data_admin : TokenData :=
  mkTokenData (VStr "a0000000-0000-4000-8000-000000000001")
    (VStr "admin@test.com") (VStr "Admin User") (VList ["admin"%string]) "access".

Definition token_data_reviewer : TokenData :=
  mkTokenData (VStr "a0000000-0000-4000-8000-000000000002")
    (VStr "reviewer@test.com") (VStr "Review User") (VList ["reviewer"%string]) "access".

(** The same store when its next three operations are a query and an add
    that succeed and a commit that fails. *)
Definition failing_commit_store : Session :=
  mkSession (users fixture_store) (roles_table fixture_store)
    (user_roles fixture_store) [] [] [false; false; true].


(** Whether a character occurs in a string. *)
Fixpoint occurs (c : ascii) (s : string) : bool :=
  match s with
  | EmptyString => false
  | String c' rest => Ascii.eqb c c' || occurs c rest
  end.

(** ** Further functions of [backend/auth/authorization.py] *)


(** [needle in s] on strings: [needle] occurs in [s] as a substring. *)
Fixpoint is_infix (needle s : string) : bool :=
  String.prefix needle s
  || match s with
     | EmptyString => false
     | String _ rest => is_infix needle rest
     end.

(** [needle in container]: membership in a list, substring of a string;
    the other JSON values are not iterable. *)
Definition py_in (needle : string) (container : value) : outcome bool :=
  match container with
  | VList l => Return (bool_decide (needle ∈ l))
  | VStr s => Return (is_infix needle s)
  | VNull | VNum _ => Raise TypeError
  end.

(** [v or []] *)
Definition or_empty_list (v : value) : value :=
  if truthy v then v else VList [].

(** [ur.role and ur.role.is_active] *)
Definition has_active_role (db : Session) (ur : UserRole) : bool :=
  match role_of db ur with
  | Some role => r_is_active role
  | None => false
  end.

(** [ur.role.name == "admin"] *)
Definition role_is_named (db : Session) (role_name : string) (ur : UserRole) : bool :=
  match role_of db ur with
  | Some role => bool_decide (r_name role = role_name)
  | None => false
  end.

Definition is_admin (user : TokenData) (db : Session) : outcome bool :=
  (in_token <- py_in "admin" (or_empty_list (roles user)) ;;
   if in_token then Return true
   else
     let user_roles := active_user_roles (sub user) db in
     Return (existsb (role_is_named db "admin")
               (List.filter (has_active_role db) user_roles)))%py.

(** ** Further functions of [backend/auth/dependencies.py] *)

Definition get_current_user_optional (credentials : option jwt.token) (now : Z)
    : outcome (option TokenData) :=
  match credentials with
  | None => Return None
  | Some token =>
      match JWTHandler.validate_token token "access" now with
      | Raise (ValueError _) => Return None
      | r => r
      end
  end.

(** The [detail] of the 403 answers of the role checkers. *)
Inductive role_denial :=
  | RequiredRoles (required_roles : list string)
  | AdminRoleRequired
  | StaffManagerOrAdminRequired
  | ReviewerOrAdminRequired.

(** The result of a role checker: the user, an [HTTPException] with a
    status code and one of the details above, or another exception. *)
Inductive checked (A : Type) :=
  | Granted (a : A)
  | Refused (status_code : Z) (detail : role_denial)
  | Crashed (e : exn).
Arguments Granted {A} a.
Arguments Refused {A} status_code detail.
Arguments Crashed {A} e.

(** [any(role in user_roles for role in required_roles)] *)
Fixpoint any_role_in (required_roles : list string) (user_roles : value) : outcome bool :=
  match required_roles with
  | [] => Return false
  | role :: rest =>
      (found <- py_in role user_roles ;;
       if found then Return true else any_role_in rest user_roles)%py
  end.

(** The dependency [check_role] built by [get_user_with_role]. *)
Definition get_user_with_role (required_roles : list string) (user : TokenData)
    : checked TokenData :=
  match any_role_in required_roles (roles user) with
  | Raise e => Crashed e
  | Return found =>
      if negb found
      then Refused HTTP_403_FORBIDDEN (RequiredRoles required_roles)
      else Granted user
  end.

Definition require_admin (user : TokenData) : checked TokenData :=
  match py_in "admin" (roles user) with
  | Raise e => Crashed e
  | Return found =>
      if negb found
      then Refused HTTP_403_FORBIDDEN AdminRoleRequired
      else Granted user
  end.

Definition require_staff_manager (user : TokenData) : checked TokenData :=
  let required_roles := ["admin"; "staff_manager"]%string in
  match any_role_in required_roles (roles user) with
  | Raise e => Crashed e
  | Return found =>
      if negb found
      then Refused HTTP_403_FORBIDDEN StaffManagerOrAdminRequired
      else Granted user
  end.

Definition require_reviewer (user : TokenData) : checked TokenData :=
  let required_roles := ["admin"; "reviewer"]%string in
  match any_role_in required_roles (roles user) with
  | Raise e => Crashed e
  | Return found =>
      if negb found
      then Refused HTTP_403_FORBIDDEN ReviewerOrAdminRequired
      else Granted user
  end.

(** ** [backend/routes/auth.py] *)

(** [_auth_states]: the login states issued and not yet consumed, each
    mapped to its record. *)
Abbreviation auth_states := (gmap string (gmap string string)).

(** [generate_state], given the value drawn by
    [secrets.token_urlsafe(32)]. *)
Definition generate_state (drawn : string) (states : auth_states)
    : string * auth_states :=
  let state := drawn in
  (state, <[state := {[ "purpose"%string := "login"%string ]}]> states).

Definition validate_state (state : string) (states : auth_states)
    : bool * auth_states :=
  if bool_decide (is_Some (states !! state))
  then (true, delete state states)
  else (false, states).

Definition role_mapping : gmap string string :=
  list_to_map [
    ("admin"%string, "admin"%string);
    ("staff_manager"%string, "staff_manager"%string);
    ("reviewer"%string, "reviewer"%string);
    ("staff_viewer"%string, "staff_viewer"%string);
    ("administrator"%string, "admin"%string);
    ("manager"%string, "staff_manager"%string);
    ("approver"%string, "reviewer"%string);
    ("viewer"%string, "staff_viewer"%string)
  ].

(** The loop body of [map_keycloak_roles_to_local]. *)
Definition add_local_role (local_roles : list string) (keycloak_role : string)
    : list string :=
  match role_mapping !! lower keycloak_role with
  | Some local_role =>
      if negb (bool_decide (local_role = ""%string))
         && negb (bool_decide (local_role ∈ local_roles))
      then local_roles ++ [local_role]
      else local_roles
  | None => local_roles
  end.

Definition map_keycloak_roles_to_local (keycloak_roles : list string) : list string :=
  foldl add_local_role [] keycloak_roles.

(** The store of the fixtures after the [admin] role was soft-deleted
    (still flagged active). *)
Definition deleted_admin_store : Session :=
  mkSession (users fixture_store)
    (list_to_map [("role-admin"%string,
                   mkRole "admin" (PermList ADMIN_PERMISSIONS) true (Some 1771329600000000));
                  ("role-reviewer"%string, reviewer_role)])
    (user_roles fixture_store) [] [] [].

(** The administrator of the fixtures holding a token issued without
    roles. *)
Definition token_data_admin_no_roles : TokenData :=
  mkTokenData (sub token_data_admin) (email token_data_admin)
    (name token_data_admin) (VList []) "access".

(** The role names known to this application. *)
Definition LOCAL_ROLES : list string :=
  ["admin"; "staff_manager"; "reviewer"; "staff_viewer"]%string.

(** ** [backend/auth/keycloak_service.py] *)

#[local] Set Warnings "-register-all".

(** JSON values with objects, as in the payload of a KeyCloak token. *)
Inductive json :=
  | JNull
  | JBool (b : bool)
  | JNum (n : Z)
  | JStr (s : string)
  | JArr (items : list json)
  | JObj (fields : gmap string json).

(** [v.get(k, dflt)]: defined on objects; on any other value the
    attribute is missing and the call raises ([None]). *)
Definition json_get (v : json) (k : string) (dflt : json) : option json :=
  match v with
  | JObj fields => Some (default dflt (fields !! k))
  | _ => None
  end.


(** [s.rstrip(c)] for a single character [c]. *)
Fixpoint rstrip (c : ascii) (s : string) : string :=
  match s with
  | EmptyString => EmptyString
  | String a rest =>
      match rstrip c rest with
      | EmptyString => if Ascii.eqb a c then EmptyString else String a EmptyString
      | stripped => String a stripped
      end
  end.

(** [s.endswith(suffix)] *)
Fixpoint endswith (s suffix : string) : bool :=
  String.eqb s suffix
  || match s with
     | EmptyString => false
     | String _ rest => endswith rest suffix
     end.

Module KeyCloakService.

(** [self.base_url] as [__init__] computes it from
    [settings.KEYCLOAK_SERVER_URL]. *)
Definition base_url (KEYCLOAK_SERVER_URL : string) : string :=
  let base_url := rstrip "/" KEYCLOAK_SERVER_URL in
  if negb (endswith base_url "/auth") then base_url +:+ "/auth" else base_url.

(** [self.realm_url] *)
Definition realm_url (KEYCLOAK_SERVER_URL KEYCLOAK_REALM : string) : string :=
  base_url KEYCLOAK_SERVER_URL +:+ "/realms/" +:+ KEYCLOAK_REALM.

(** [extract_roles], for the configured [settings.KEYCLOAK_CLIENT_ID]. *)
Definition extract_roles (KEYCLOAK_CLIENT_ID : string)
    (keycloak_token_payload : gmap string json) : json :=
  match
    (let resource_access :=
       default (JObj ∅) (keycloak_token_payload !! "resource_access"%string) in
     client_roles ← json_get resource_access KEYCLOAK_CLIENT_ID (JObj ∅);
     json_get client_roles "roles" (JArr []))
  with
  | Some roles => roles
  | None => JArr []
  end.


End KeyCloakService.

(** A permission is granted directly to a principal when one of its
    assignments that are not soft-deleted refers to an active, not
    soft-deleted role granting it. *)
Definition directly_granted (user_id : value) (db : Session) (permission : string)
    : Prop :=
  exists ur role,
    ur ∈ active_user_roles user_id db
    /\ role_of db ur = Some role
    /\ r_is_active role = true
    /\ r_deleted_at role = None
    /\ role_grants role permission.

(** The three inheritance rules: holding [premise] implies holding
    [conclusion]. *)
Definition INHERITANCE_RULES : list (string * string) := [
  (Permission.FORM_DELETE, Permission.FORM_EDIT);
  (Permission.USER_MANAGE_ROLES, Permission.USER_READ);
  (Permission.BUSINESS_AREA_MANAGE, Permission.BUSINESS_AREA_READ)
].

(** ** [DEFAULT_ROLES] of [backend/auth/permissions.py] *)

Record RoleConfig := mkRoleConfig {
  rc_description : string;
  rc_is_system : bool;
  rc_permissions : list string;
}.

Definition STAFF_MANAGER_PERMISSIONS : list string := [
  Permission.FORM_CREATE; Permission.FORM_READ; Permission.FORM_EDIT;
  Permission.FORM_DELETE; Permission.FORM_ARCHIVE;
  Permission.FORM_SUBMIT_FOR_REVIEW; Permission.FORM_REVIEW;
  Permission.FORM_APPROVE;
  Permission.BUSINESS_AREA_READ; Permission.BUSINESS_AREA_MANAGE;
  Permission.CATEGORY_READ;
  Permission.USER_READ;
  Permission.AUDIT_LOG_VIEW; Permission.REPORT_VIEW
].

Definition STAFF_VIEWER_PERMISSIONS : list string := [
  Permission.FORM_READ;
  Permission.BUSINESS_AREA_READ;
  Permission.CATEGORY_READ
].

(** The entries of the dictionary, in its order. *)
Definition DEFAULT_ROLES : list (string * RoleConfig) := [
  ("admin"%string,
   mkRoleConfig "System administrator with full access" true ADMIN_PERMISSIONS);
  ("staff_manager"%string,
   mkRoleConfig "Staff manager responsible for form workflow and staff coordination"
     true STAFF_MANAGER_PERMISSIONS);
  ("reviewer"%string,
   mkRoleConfig "Form reviewer responsible for reviewing and approving forms"
     true REVIEWER_PERMISSIONS);
  ("staff_viewer"%string,
   mkRoleConfig "Staff member with read-only access to published forms"
     true STAFF_VIEWER_PERMISSIONS)
].

(** ** [backend/seeds/default_roles.py]

    The [roles] table with the columns that seeding reads and writes.
    Identifiers are numbers; [uuid.uuid4] is modelled as drawing an
    identifier that no row of the table holds.  As for the session of the
    audit recorder, a fault plan tells which of the coming store
    operations fail.  The table enforces the uniqueness of [name]
    ([uq_roles_name]). *)

Record RoleRow := mkRoleRow {
  rr_id : N;
  rr_name : string;
  rr_description : option string;
  rr_permissions : permissions_column;
  rr_is_system : bool;
  rr_is_active : bool;
  rr_deleted_at : option Z;
}.

Record RolesDb := mkRolesDb {
  role_rows : list RoleRow;
  roles_faults : list bool;
}.

Inductive seed_status :=
  | SeedCreated (id : N) (permissions_count : nat)
  | SeedUpdated (id : N)
  | SeedFailedIntegrity
  | SeedFailed (error : exn).

Record SeedResults := mkSeedResults {
  sr_created : nat;
  sr_updated : nat;
  sr_failed : nat;
  sr_roles : list (string * seed_status);
}.

Definition roles_next_fault (db : RolesDb) : bool * RolesDb :=
  match roles_faults db with
  | [] => (false, db)
  | f :: rest => (f, mkRolesDb (role_rows db) rest)
  end.

(** [Role.name == role_name, Role.deleted_at.is_(None)] *)
Definition live_named (role_name : string) (r : RoleRow) : bool :=
  bool_decide (rr_name r = role_name) && bool_decide (rr_deleted_at r = None).

(** The assignments made to an existing role. *)
Definition configure (role_config : RoleConfig) (r : RoleRow) : RoleRow :=
  mkRoleRow (rr_id r) (rr_name r) (Some (rc_description role_config))
    (PermList (rc_permissions role_config)) (rc_is_system role_config) true
    (rr_deleted_at r).

(** The row of a new role. *)
Definition new_role_row (id : N) (role_name : string) (role_config : RoleConfig)
    : RoleRow :=
  mkRoleRow id role_name (Some (rc_description role_config))
    (PermList (rc_permissions role_config)) (rc_is_system role_config) true None.

(** An identifier that no row holds. *)
Definition fresh_role_id (rows : list RoleRow) : N :=
  N.succ (foldr N.max 0%N (rr_id <$> rows)).

(** The table after the first row selected by [select] was changed. *)
Fixpoint update_first (select : RoleRow -> bool) (change : RoleRow -> RoleRow)
    (rows : list RoleRow) : list RoleRow :=
  match rows with
  | [] => []
  | r :: rest =>
      if select r then change r :: rest
      else r :: update_first select change rest
  end.

Definition seed_report (results : SeedResults) (role_name : string)
    (status : seed_status) : SeedResults :=
  match status with
  | SeedCreated _ _ =>
      mkSeedResults (S (sr_created results)) (sr_updated results) (sr_failed results)
        (sr_roles results ++ [(role_name, status)])
  | SeedUpdated _ =>
      mkSeedResults (sr_created results) (S (sr_updated results)) (sr_failed results)
        (sr_roles results ++ [(role_name, status)])
  | SeedFailedIntegrity | SeedFailed _ =>
      mkSeedResults (sr_created results) (sr_updated results) (S (sr_failed results))
        (sr_roles results ++ [(role_name, status)])
  end.

(** A handler of [seed_default_roles]: [db.rollback()], which can fail
    and then raises out of the function, followed by the report of the
    failure. *)
Definition seed_failure (results : SeedResults) (role_name : string)
    (status : seed_status) (db : RolesDb) : outcome SeedResults * RolesDb :=
  let '(rollback_fails, db) := roles_next_fault db in
  if rollback_fails then (Raise (SQLAlchemyError OperationalError), db)
  else (Return (seed_report results role_name status), db).

(** One turn of the loop of [seed_default_roles]: the [try] block with
    its two handlers. *)
Definition seed_role (results : SeedResults) (entry : string * RoleConfig)
    (db : RolesDb) : outcome SeedResults * RolesDb :=
  let '(role_name, role_config) := entry in
  let '(query_fails, db) := roles_next_fault db in
  if query_fails
  then seed_failure results role_name (SeedFailed (SQLAlchemyError OperationalError)) db
  else
    match find (live_named role_name) (role_rows db) with
    | Some existing_role =>
        let '(commit_fails, db) := roles_next_fault db in
        if commit_fails
        then seed_failure results role_name
               (SeedFailed (SQLAlchemyError OperationalError)) db
        else
          (Return (seed_report results role_name (SeedUpdated (rr_id existing_role))),
           mkRolesDb
             (update_first (live_named role_name) (configure role_config)
                (role_rows db))
             (roles_faults db))
    | None =>
        let new_role :=
          new_role_row (fresh_role_id (role_rows db)) role_name role_config in
        let '(add_fails, db) := roles_next_fault db in
        if add_fails
        then seed_failure results role_name
               (SeedFailed (SQLAlchemyError OperationalError)) db
        else
          let '(commit_fails, db) := roles_next_fault db in
          if commit_fails
          then seed_failure results role_name
                 (SeedFailed (SQLAlchemyError OperationalError)) db
          else if existsb (fun r => bool_decide (rr_name r = role_name)) (role_rows db)
          then seed_failure results role_name SeedFailedIntegrity db
          else
            (Return (seed_report results role_name
                       (SeedCreated (rr_id new_role)
                          (length (rc_permissions role_config)))),
             mkRolesDb (role_rows db ++ [new_role]) (roles_faults db))
    end.

(** The loop over a dictionary of role configurations; an exception that
    leaves a turn ends it. *)
Fixpoint seed_roles_from (configs : list (string * RoleConfig))
    (results : SeedResults) (db : RolesDb) : outcome SeedResults * RolesDb :=
  match configs with
  | [] => (Return results, db)
  | entry :: configs =>
      match seed_role results entry db with
      | (Return results, db) => seed_roles_from configs results db
      | (Raise e, db) => (Raise e, db)
      end
  end.

Definition seed_roles (configs : list (string * RoleConfig)) (db : RolesDb)
    : outcome SeedResults * RolesDb :=
  seed_roles_from configs (mkSeedResults 0 0 0 []) db.

Definition seed_default_roles (db : RolesDb) : outcome SeedResults * RolesDb :=
  seed_roles DEFAULT_ROLES db.

Definition get_role_by_name (db : RolesDb) (role_name : string) : option RoleRow :=
  find (fun r => bool_decide (rr_name r = role_name)
                 && rr_is_active r
                 && bool_decide (rr_deleted_at r = None))
       (role_rows db).

Definition get_all_system_roles (db : RolesDb) : list RoleRow :=
  List.filter (fun r => rr_is_system r && rr_is_active r
                        && bool_decide (rr_deleted_at r = None))
              (role_rows db).

(** The row that seeding leaves for a default role. *)
Definition seeded_as (role_name : string) (role_config : RoleConfig) (r : RoleRow)
    : Prop :=
  rr_name r = role_name
  /\ rr_description r = Some (rc_description role_config)
  /\ rr_permissions r = PermList (rc_permissions role_config)
  /\ rr_is_system r = rc_is_system role_config
  /\ rr_is_active r = true
  /\ rr_deleted_at r = None.

(** [Role.name == role_name] *)
Definition named (role_name : string) (r : RoleRow) : bool :=
  bool_decide (rr_name r = role_name).

(** The table after one turn of the loop in which no operation fails. *)
Definition seeded_rows (rows : list RoleRow) (entry : string * RoleConfig)
    : list RoleRow :=
  match find (live_named entry.1) rows with
  | Some _ => update_first (live_named entry.1) (configure entry.2) rows
  | None =>
      if existsb (named entry.1) rows then rows
      else rows ++ [new_role_row (fresh_role_id rows) entry.1 entry.2]
  end.

(** A role is settled in a table when seeding it changes nothing: its
    live row is as configured, or there is no live row and the name is
    taken, by a soft-deleted row. *)
Definition settled (rows : list RoleRow) (entry : string * RoleConfig) : Prop :=
  match find (live_named entry.1) rows with
  | Some r => configure entry.2 r = r
  | None => existsb (named entry.1) rows = true
  end.

(** ** The form life cycle of [backend/services/forms.py]

    The [forms] and [form_workflow] tables, with the columns that the
    modelled operations read or write, beside the session of the audit
    recorder.  A commit that fails leaves the tables as they were, and
    the exception reaches the caller: these operations have no handler.
    So does an exception that leaves the audit recorder.
    The [form_workflow] table enforces its foreign key to [users]. *)

Record Form := mkForm {
  f_id : string;
  f_title : string;
  f_status : string;
  f_deleted_at : option Z;
}.

Record FormWorkflow := mkFormWorkflow {
  w_form_id : string;
  w_action : string;
  w_from_status : string;
  w_to_status : string;
  w_triggered_by_id : value;
}.

Record FormsDb := mkFormsDb {
  forms_table : list Form;
  form_workflow : list FormWorkflow;
  forms_session : Session;
}.

(** The row selected by [db.query(Form).filter(Form.id == form_id,
    Form.deleted_at.is_(None)).first()]. *)
Definition live_form (db : FormsDb) (form_id : string) : option Form :=
  find (fun f => bool_decide (f_id f = form_id)
                 && bool_decide (f_deleted_at f = None))
       (forms_table db).

(** The store with its session replaced. *)
Definition with_session (db : FormsDb) (s : Session) : FormsDb :=
  mkFormsDb (forms_table db) (form_workflow db) s.

(** [get_form_by_id]: the query, which can fail like every operation of
    the store. *)
Definition get_form_by_id (db : FormsDb) (form_id : string)
    : outcome (option Form) * FormsDb :=
  let '(fails, s) := next_fault (forms_session db) in
  if fails then (Raise (SQLAlchemyError OperationalError), with_session db s)
  else (Return (live_form db form_id), with_session db s).

(** [db.refresh(form)]: the attributes of the object are read again from
    its row, which the commit before has just written. *)
Definition db_refresh (db : FormsDb) : outcome unit * FormsDb :=
  let '(fails, s) := next_fault (forms_session db) in
  if fails then (Raise (SQLAlchemyError OperationalError), with_session db s)
  else (Return tt, with_session db s).

(** The [UPDATE] of the row of a form, by primary key. *)
Definition update_form_row (form_id : string) (change : Form -> Form)
    (rows : list Form) : list Form :=
  (fun f => if bool_decide (f_id f = form_id) then change f else f) <$> rows.

Definition with_status (status : string) (f : Form) : Form :=
  mkForm (f_id f) (f_title f) status (f_deleted_at f).

Definition with_deleted_at (t : Z) (f : Form) : Form :=
  mkForm (f_id f) (f_title f) (f_status f) (Some t).

(** [db.commit()] after a change to a form. *)
Definition commit_form_change (form_id : string) (change : Form -> Form)
    (db : FormsDb) : outcome unit * FormsDb :=
  match db_commit (forms_session db) with
  | (Return _, s) =>
      (Return tt,
       mkFormsDb (update_form_row form_id change (forms_table db))
         (form_workflow db) s)
  | (Raise e, s) => (Raise e, mkFormsDb (forms_table db) (form_workflow db) s)
  end.

(** [db.add(workflow); db.commit()] *)
Definition commit_workflow (workflow : FormWorkflow) (db : FormsDb)
    : outcome unit * FormsDb :=
  let '(add_fails, s) := next_fault (forms_session db) in
  if add_fails
  then (Raise (SQLAlchemyError OperationalError),
        mkFormsDb (forms_table db) (form_workflow db) s)
  else
    let '(commit_fails, s) := next_fault s in
    if commit_fails
    then (Raise (SQLAlchemyError OperationalError),
          mkFormsDb (forms_table db) (form_workflow db) s)
    else if bool_decide (is_Some (first_user (w_triggered_by_id workflow) s))
            && forallb (fk_user_ok s) (pending s)
    then (Return tt,
          mkFormsDb (forms_table db) (form_workflow db ++ [workflow])
            (mkSession (users s) (roles_table s) (user_roles s)
               (audit_log s ++ pending s) [] (faults s)))
    else (Raise (SQLAlchemyError IntegrityError),
          mkFormsDb (forms_table db) (form_workflow db) s).

(** The call of [FormService._audit_log] on the session of the store. *)
Definition audit_form (entity_id action : string) (user_id : value)
    (old_values new_values : option (gmap string audit_value)) (db : FormsDb)
    : outcome unit * FormsDb :=
  let '(r, s) := FormService._audit_log "forms" entity_id action user_id old_values
                   new_values (forms_session db) in
  (r, mkFormsDb (forms_table db) (form_workflow db) s).

(** [delete_form], given the instant read by [datetime.utcnow()]; the
    audit entry holds that instant, which the source writes in ISO
    format. *)
Definition delete_form (form_id : string) (deleted_by_id : value) (now : Z)
    (db : FormsDb) : outcome bool * FormsDb :=
  match get_form_by_id db form_id with
  | (Raise e, db) => (Raise e, db)
  | (Return None, db) => (Return false, db)
  | (Return (Some form), db) =>
      match commit_form_change (f_id form) (with_deleted_at now) db with
      | (Raise e, db) => (Raise e, db)
      | (Return _, db) =>
          let form := with_deleted_at now form in
          match audit_form (f_id form) "DELETE" deleted_by_id
                  (Some {[ "status"%string := AStr (f_status form) ]})
                  (Some {[ "deleted_at"%string := AJson (VNum now) ]}) db with
          | (Raise e, db) => (Raise e, db)
          | (Return _, db) => (Return true, db)
          end
      end
  end.

Definition archive_form (form_id : string) (archived_by_id : value)
    (db : FormsDb) : outcome (option Form) * FormsDb :=
  match get_form_by_id db form_id with
  | (Raise e, db) => (Raise e, db)
  | (Return None, db) => (Return None, db)
  | (Return (Some form), db) =>
      let old_status := f_status form in
      match commit_form_change (f_id form) (with_status "archived") db with
      | (Raise e, db) => (Raise e, db)
      | (Return _, db) =>
          match db_refresh db with
          | (Raise e, db) => (Raise e, db)
          | (Return _, db) =>
              let form := with_status "archived" form in
              let workflow :=
                mkFormWorkflow (f_id form) "archive" old_status "archived"
                  archived_by_id in
              match commit_workflow workflow db with
              | (Raise e, db) => (Raise e, db)
              | (Return _, db) =>
                  match audit_form (f_id form) "UPDATE" archived_by_id
                          (Some {[ "status"%string := AStr old_status ]})
                          (Some {[ "status"%string := AStr "archived" ]}) db with
                  | (Raise e, db) => (Raise e, db)
                  | (Return _, db) => (Return (Some form), db)
                  end
              end
          end
      end
  end.

Definition unarchive_form (form_id : string) (unarchived_by_id : value)
    (db : FormsDb) : outcome (option Form) * FormsDb :=
  match get_form_by_id db form_id with
  | (Raise e, db) => (Raise e, db)
  | (Return None, db) => (Return None, db)
  | (Return (Some form), db) =>
      if negb (bool_decide (f_status form = "archived"%string))
      then (Return None, db)
      else
        let old_status := f_status form in
        match commit_form_change (f_id form) (with_status "published") db with
        | (Raise e, db) => (Raise e, db)
        | (Return _, db) =>
            match db_refresh db with
            | (Raise e, db) => (Raise e, db)
            | (Return _, db) =>
                let form := with_status "published" form in
                let workflow :=
                  mkFormWorkflow (f_id form) "unarchive" old_status "published"
                    unarchived_by_id in
                match commit_workflow workflow db with
                | (Raise e, db) => (Raise e, db)
                | (Return _, db) =>
                    match audit_form (f_id form) "UPDATE" unarchived_by_id
                            (Some {[ "status"%string := AStr old_status ]})
                            (Some {[ "status"%string := AStr "published" ]}) db with
                    | (Raise e, db) => (Raise e, db)
                    | (Return _, db) => (Return (Some form), db)
                    end
                end
            end
        end
  end.

(** A session in which nothing is pending and no operation fails. *)
Definition quiet (s : Session) : Prop := pending s = [] /\ faults s = [].

(** The result [r] of an operation on [db] that found no form to act on:
    it answered [nothing], or raised because its query failed, which it
    does not do when no operation of the store fails; the tables are as
    they were. *)
Definition found_nothing {A} (nothing : A) (db : FormsDb) (r : outcome A * FormsDb)
    : Prop :=
  (r.1 = Return nothing \/ r.1 = Raise (SQLAlchemyError OperationalError))
  /\ (true ∉ faults (forms_session db) -> r.1 = Return nothing)
  /\ forms_table r.2 = forms_table db
  /\ form_workflow r.2 = form_workflow db.

(** A store with one draft form, created by the administrator of the
    fixtures. *)
Definition draft_form : Form := mkForm "f0000000-0000-4000-8000-000000000001"
  "Commercial vehicle permit" "draft" None.

Definition forms_fixture : FormsDb := mkFormsDb [draft_form] [] fixture_store.

(** The session after an audit row was committed. *)
Definition with_audit_row (s : Session) (row : AuditLog) : Session :=
  mkSession (users s) (roles_table s) (user_roles s) (audit_log s ++ [row]) []
    (faults s).

(** The audit row of a status change of a form. *)
Definition status_audit_row (form_id : string) (user_id : value)
    (old_status new_status : string) : AuditLog :=
  mkAuditLog "forms" form_id "UPDATE" user_id
    (Some {[ "status"%string := AStr old_status ]})
    (Some {[ "status"%string := AStr new_status ]}).

(** * Properties *)

(** ** Outcomes and the library model *)

Lemma bind_Return_inv {A B} (m : outcome A) (k : A -> outcome B) (b : B) :
  bind m k = Return b -> exists a, m = Return a /\ k a = Return b.
Proof. destruct m as [a|e]; simpl; [eauto | discriminate]. Qed.

Lemma bind_unit_Return_inv {B} (m : outcome unit) (k : unit -> outcome B) (b : B) :
  bind m k = Return b -> m = Return tt /\ k tt = Return b.
Proof.
  intros H. apply bind_Return_inv in H as ([] & Hm & Hk). auto.
Qed.

Lemma quot_micros_le (n : Z) : 0 <= n -> Z.quot n MICROS * MICROS <= n.
Proof.
  intros Hn. unfold MICROS.
  pose proof (Z.quot_rem' n 1000000) as Hqr.
  pose proof (Z.rem_nonneg n 1000000 ltac:(lia) Hn). lia.
Qed.


(** What a successful [jwt.decode] establishes. *)
Lemma decode_Return_inv tok key algorithms audience issuer verify_exp now payload :
  jwt.decode tok key algorithms audience issuer verify_exp now = Return payload ->
  exists j,
    tok = jwt.Compact j
    /\ payload = jwt.jws_payload j
    /\ jwt.jws_alg j ∈ algorithms
    /\ jwt.verify_signature key j = true
    /\ jwt.validate_iat payload now = Return tt
    /\ jwt.validate_nbf payload now = Return tt
    /\ (verify_exp = true -> jwt.validate_exp payload now = Return tt)
    /\ jwt.validate_iss payload issuer = Return tt
    /\ jwt.validate_aud payload audience = Return tt.
Proof.
  destruct tok as [text|j]; simpl; [discriminate|].
  case_bool_decide as Halg; simpl; [|discriminate].
  destruct (jwt.verify_signature key j) eqn:Hsig; simpl; [|discriminate].
  intros H.
  apply bind_unit_Return_inv in H as [Hiat H].
  apply bind_unit_Return_inv in H as [Hnbf H].
  apply bind_unit_Return_inv in H as [Hexp H].
  apply bind_unit_Return_inv in H as [Hiss H].
  apply bind_unit_Return_inv in H as [Haud H].
  injection H as <-.
  exists j. repeat split; try assumption.
  intros ->. exact Hexp.
Qed.

(** Conversely, a token that passes every check decodes to its payload. *)
Lemma decode_Return_intro j key algorithms audience issuer verify_exp now :
  jwt.jws_alg j ∈ algorithms ->
  jwt.verify_signature key j = true ->
  jwt.validate_iat (jwt.jws_payload j) now = Return tt ->
  jwt.validate_nbf (jwt.jws_payload j) now = Return tt ->
  (verify_exp = true -> jwt.validate_exp (jwt.jws_payload j) now = Return tt) ->
  jwt.validate_iss (jwt.jws_payload j) issuer = Return tt ->
  jwt.validate_aud (jwt.jws_payload j) audience = Return tt ->
  jwt.decode (jwt.Compact j) key algorithms audience issuer verify_exp now
  = Return (jwt.jws_payload j).
Proof.
  intros Halg Hsig Hiat Hnbf Hexp Hiss Haud. simpl.
  rewrite bool_decide_true by assumption. rewrite Hsig. simpl.
  rewrite Hiat, Hnbf. simpl.
  destruct verify_exp; [rewrite Hexp by reflexivity|]; simpl;
    rewrite Hiss, Haud; reflexivity.
Qed.

(** The decoded payload does not depend on whether the expiry is checked. *)
Lemma decode_verify_exp_irrelevant tok key algorithms audience issuer now payload :
  jwt.decode tok key algorithms audience issuer true now = Return payload ->
  jwt.decode tok key algorithms audience issuer false now = Return payload.
Proof.
  intros H. apply decode_Return_inv in H
    as (j & -> & -> & Halg & Hsig & Hiat & Hnbf & _ & Hiss & Haud).
  apply decode_Return_intro; try assumption. discriminate.
Qed.

(** A successful validation comes from a successful decode of a payload
    whose type discriminator is the expected one. *)
Lemma validate_token_Return_inv tok ty now r :
  JWTHandler.validate_token tok ty now = Return r ->
  exists payload,
    jwt.decode tok PUBLIC_KEY [ALGORITHM] TOKEN_AUDIENCE TOKEN_ISSUER true now
    = Return payload
    /\ dict_get payload "type" VNull = VStr ty
    /\ exists td, r = Some td /\ token_type td = ty
         /\ sub td = dict_get payload "sub" VNull.
Proof.
  unfold JWTHandler.validate_token, JWTHandler.validate_token_body.
  destruct (jwt.decode tok PUBLIC_KEY [ALGORITHM] TOKEN_AUDIENCE TOKEN_ISSUER true now)
    as [payload|e] eqn:Hdec; simpl.
  - case_bool_decide as Hty; simpl; [discriminate|].
    case_bool_decide; intros [= <-]; exists payload; eauto 10.
  - destruct e as [[]| | | |]; discriminate.
Qed.

(** A successful decode whose payload has the expected type validates. *)
Lemma validate_token_Return_intro tok ty now payload :
  jwt.decode tok PUBLIC_KEY [ALGORITHM] TOKEN_AUDIENCE TOKEN_ISSUER true now
  = Return payload ->
  dict_get payload "type" VNull = VStr ty ->
  JWTHandler.validate_token tok ty now = Return (Some (
    if bool_decide (ty = "refresh"%string)
    then mkTokenData (dict_get payload "sub" VNull) (VStr "") (VStr "") (VList []) ty
    else mkTokenData (dict_get payload "sub" VNull) (dict_get payload "email" VNull)
           (dict_get payload "name" VNull) (dict_get payload "roles" (VList [])) ty)).
Proof.
  intros Hdec Hty.
  unfold JWTHandler.validate_token, JWTHandler.validate_token_body.
  rewrite Hdec. simpl. rewrite bool_decide_false by (rewrite Hty; auto).
  case_bool_decide; reflexivity.
Qed.

(** A successful decode whose payload has another type is a
    [TypeMismatch]. *)
Lemma validate_token_TypeMismatch tok ty now payload :
  jwt.decode tok PUBLIC_KEY [ALGORITHM] TOKEN_AUDIENCE TOKEN_ISSUER true now
  = Return payload ->
  dict_get payload "type" VNull <> VStr ty ->
  JWTHandler.validate_token tok ty now
  = Raise (ValueError (TypeMismatch ty (dict_get payload "type" VNull))).
Proof.
  intros Hdec Hty.
  unfold JWTHandler.validate_token, JWTHandler.validate_token_body.
  rewrite Hdec. simpl. rewrite bool_decide_true by assumption. reflexivity.
Qed.

(** ** Tokens minted by the service *)

(** A payload with the registered claims that the service embeds, signed
    with the service key, decodes to itself from its issue instant until
    its expiry (and for ever when the expiry is not verified). *)
Lemma decode_encode (payload : claims) (issued lifetime now : Z) (verify_exp : bool) :
  payload !! "iat"%string = Some (VNum issued) ->
  payload !! "nbf"%string = None ->
  payload !! "exp"%string = Some (VNum (issued + lifetime)) ->
  payload !! "iss"%string = Some (VStr TOKEN_ISSUER) ->
  payload !! "aud"%string = Some (VStr TOKEN_AUDIENCE) ->
  0 <= issued <= now ->
  (verify_exp = true -> now < expiry_instant issued lifetime) ->
  jwt.decode (jwt.encode payload PRIVATE_KEY ALGORITHM) PUBLIC_KEY [ALGORITHM]
    TOKEN_AUDIENCE TOKEN_ISSUER verify_exp now
  = Return payload.
Proof.
  intros Hiat Hnbf Hexp Hiss Haud Hnow Hlive.
  unfold jwt.encode, PRIVATE_KEY.
  match goal with
  | |- jwt.decode (jwt.Compact ?j) _ _ _ _ _ _ = _ =>
      change (Return payload) with (Return (A:=claims) (jwt.jws_payload j));
      apply decode_Return_intro; cbn [jwt.jws_payload jwt.jws_alg jwt.jws_signature]
  end.
  - constructor.
  - unfold jwt.verify_signature, PUBLIC_KEY. simpl. apply bool_decide_eq_true. reflexivity.
  - unfold jwt.validate_iat. rewrite Hiat. cbn [py_int].
    pose proof (quot_micros_le issued ltac:(lia)).
    destruct (Z.ltb_spec now (Z.quot issued MICROS * MICROS)); [lia | reflexivity].
  - unfold jwt.validate_nbf. rewrite Hnbf. reflexivity.
  - intros Hv. specialize (Hlive Hv). unfold expiry_instant in Hlive.
    unfold jwt.validate_exp. rewrite Hexp. cbn [py_int].
    destruct (Z.leb_spec (Z.quot (issued + lifetime) MICROS * MICROS) now);
      [lia | reflexivity].
  - unfold jwt.validate_iss. rewrite Hiss. rewrite bool_decide_true; reflexivity.
  - unfold jwt.validate_aud. rewrite Haud. reflexivity.
Qed.

Lemma decode_access_token user_id email name roles expires_delta issued now verify_exp :
  0 <= issued <= now ->
  (verify_exp = true ->
   now < expiry_instant issued (lifetime_of ACCESS_TOKEN_EXPIRY expires_delta)) ->
  exists payload : claims,
    jwt.decode
      (JWTHandler.generate_access_token user_id email name roles expires_delta issued)
      PUBLIC_KEY [ALGORITHM] TOKEN_AUDIENCE TOKEN_ISSUER verify_exp now
    = Return payload
    /\ dict_get payload "type" VNull = VStr "access"
    /\ dict_get payload "sub" VNull = VStr user_id
    /\ dict_get payload "email" VNull = VStr email
    /\ dict_get payload "name" VNull = VStr name
    /\ dict_get payload "roles" (VList []) = VList roles.
Proof.
  intros Hnow Hlive. unfold JWTHandler.generate_access_token.
  eexists. split.
  - apply decode_encode with (issued := issued)
      (lifetime := lifetime_of ACCESS_TOKEN_EXPIRY expires_delta);
      try reflexivity; try assumption.
  - repeat split; reflexivity.
Qed.

Lemma decode_refresh_token user_id expires_delta issued now verify_exp :
  0 <= issued <= now ->
  (verify_exp = true ->
   now < expiry_instant issued (lifetime_of REFRESH_TOKEN_EXPIRY expires_delta)) ->
  exists payload : claims,
    jwt.decode (JWTHandler.generate_refresh_token user_id expires_delta issued)
      PUBLIC_KEY [ALGORITHM] TOKEN_AUDIENCE TOKEN_ISSUER verify_exp now
    = Return payload
    /\ dict_get payload "type" VNull = VStr "refresh"
    /\ dict_get payload "sub" VNull = VStr user_id.
Proof.
  intros Hnow Hlive. unfold JWTHandler.generate_refresh_token.
  eexists. split.
  - apply decode_encode with (issued := issued)
      (lifetime := lifetime_of REFRESH_TOKEN_EXPIRY expires_delta);
      try reflexivity; try assumption.
  - repeat split; reflexivity.
Qed.

(** With the default lifetimes a token is still live at its issue
    instant. *)
Lemma default_lifetime_live (seconds issued : Z) :
  0 <= issued -> 1 <= seconds ->
  issued < expiry_instant issued (timedelta_seconds seconds).
Proof.
  intros Hi Hs. unfold expiry_instant, timedelta_seconds, MICROS.
  pose proof (Z.quot_rem' (issued + seconds * 1000000) 1000000) as Hqr.
  pose proof (Z.rem_bound_pos (issued + seconds * 1000000) 1000000
                ltac:(lia) ltac:(lia)).
  lia.
Qed.

Lemma dict_get_VStr_lookup (payload : claims) (k s : string) :
  dict_get payload k VNull = VStr s -> payload !! k = Some (VStr s).
Proof.
  unfold dict_get. destruct (payload !! k) as [v|]; simpl; [congruence | discriminate].
Qed.

Lemma returns_false_Raise {A} (m : outcome A) :
  returns m = false -> exists e, m = Raise e.
Proof. destruct m; [discriminate | eauto]. Qed.

(** ** Token type discipline *)

(** C1. [validate_token] accepts a token only when the type discriminator
    embedded in it equals the expected type, so a token accepted as one
    type is rejected, at any instant, when presented as any other type.
    A refresh token minted by the service and presented as an access
    token is never accepted and, while it is live, is rejected with
    [TypeMismatch]; likewise for an access token presented as a refresh
    token. *)
Theorem validate_token_type_discipline :
  (forall tok ty now r,
     JWTHandler.validate_token tok ty now = Return r ->
     (exists j, tok = jwt.Compact j
                /\ jwt.jws_payload j !! "type"%string = Some (VStr ty))
     /\ forall ty' now', ty' <> ty ->
          returns (JWTHandler.validate_token tok ty' now') = false)
  /\ (forall user_id expires_delta issued now,
        returns (JWTHandler.validate_token
                   (JWTHandler.generate_refresh_token user_id expires_delta issued)
                   "access" now) = false
        /\ (0 <= issued <= now ->
            now < expiry_instant issued (lifetime_of REFRESH_TOKEN_EXPIRY expires_delta) ->
            JWTHandler.validate_token
              (JWTHandler.generate_refresh_token user_id expires_delta issued)
              "access" now
            = Raise (ValueError (TypeMismatch "access" (VStr "refresh")))))
  /\ (forall user_id email name roles expires_delta issued now,
        returns (JWTHandler.validate_token
                   (JWTHandler.generate_access_token user_id email name roles
                      expires_delta issued)
                   "refresh" now) = false
        /\ (0 <= issued <= now ->
            now < expiry_instant issued (lifetime_of ACCESS_TOKEN_EXPIRY expires_delta) ->
            JWTHandler.validate_token
              (JWTHandler.generate_access_token user_id email name roles
                 expires_delta issued)
              "refresh" now
            = Raise (ValueError (TypeMismatch "refresh" (VStr "access"))))).
Proof.
  assert (Hemb : forall tok ty now r,
            JWTHandler.validate_token tok ty now = Return r ->
            exists j, tok = jwt.Compact j
                      /\ jwt.jws_payload j !! "type"%string = Some (VStr ty)).
  { intros tok ty now r H.
    apply validate_token_Return_inv in H as (payload & Hdec & Hty & _).
    apply decode_Return_inv in Hdec as (j & -> & -> & _).
    exists j. split; [reflexivity|]. by apply dict_get_VStr_lookup. }
  assert (Hother : forall tok ty now r,
            JWTHandler.validate_token tok ty now = Return r ->
            forall ty' now', ty' <> ty ->
              returns (JWTHandler.validate_token tok ty' now') = false).
  { intros tok ty now r H ty' now' Hne.
    destruct (JWTHandler.validate_token tok ty' now') as [r'|e] eqn:H'; [|reflexivity].
    apply Hemb in H as (j & -> & Hty).
    apply Hemb in H' as (j' & [= <-] & Hty'). congruence. }
  split; [|split].
  - intros tok ty now r H. split; [by eapply Hemb | by eapply Hother].
  - intros user_id expires_delta issued now. split.
    + destruct (JWTHandler.validate_token _ "access" now) as [r|e] eqn:H; [|reflexivity].
      apply Hemb in H as (j & [= <-] & Hty). discriminate Hty.
    + intros Hnow Hlive.
      destruct (decode_refresh_token user_id expires_delta issued now true Hnow
                  (fun _ => Hlive)) as (payload & Hdec & Hty & _).
      rewrite (validate_token_TypeMismatch _ _ _ _ Hdec); rewrite Hty; [reflexivity|].
      discriminate.
  - intros user_id email name roles expires_delta issued now. split.
    + destruct (JWTHandler.validate_token _ "refresh" now) as [r|e] eqn:H; [|reflexivity].
      apply Hemb in H as (j & [= <-] & Hty). discriminate Hty.
    + intros Hnow Hlive.
      destruct (decode_access_token user_id email name roles expires_delta issued now
                  true Hnow (fun _ => Hlive)) as (payload & Hdec & Hty & _).
      rewrite (validate_token_TypeMismatch _ _ _ _ Hdec); rewrite Hty; [reflexivity|].
      discriminate.
Qed.

(** A refresh token issued at second 1 with the default lifetime and
    presented as an access token two seconds later. *)
Lemma validate_token_type_discipline_witness :
  JWTHandler.validate_token
    (JWTHandler.generate_refresh_token "550e8400-e29b-41d4-a716-446655440000" None 1000000)
    "access" 3000000
  = Raise (ValueError (TypeMismatch "access" (VStr "refresh"))).
Proof.
  apply (proj2 (proj1 (proj2 validate_token_type_discipline)
                  "550e8400-e29b-41d4-a716-446655440000"%string None 1000000 3000000)).
  - lia.
  - reflexivity.
Defined.

(** ** Round trip of an access token *)

(** C5. An access token issued for a subject, email, name and role list
    validates as an access token, at any instant from its issue until its
    expiry, to a principal carrying exactly that subject, email, name and
    role list; with the default lifetime this holds in particular at the
    issue instant itself. *)
Theorem issue_validate_roundtrip :
  forall user_id email name roles,
    (forall expires_delta issued now,
       0 <= issued <= now ->
       now < expiry_instant issued (lifetime_of ACCESS_TOKEN_EXPIRY expires_delta) ->
       JWTHandler.validate_token
         (JWTHandler.generate_access_token user_id email name roles expires_delta issued)
         "access" now
       = Return (Some (mkTokenData (VStr user_id) (VStr email) (VStr name)
                         (VList roles) "access")))
    /\ (forall now,
          0 <= now ->
          JWTHandler.validate_token
            (JWTHandler.generate_access_token user_id email name roles None now)
            "access" now
          = Return (Some (mkTokenData (VStr user_id) (VStr email) (VStr name)
                            (VList roles) "access"))).
Proof.
  intros user_id email name roles.
  assert (Hgen : forall expires_delta issued now,
       0 <= issued <= now ->
       now < expiry_instant issued (lifetime_of ACCESS_TOKEN_EXPIRY expires_delta) ->
       JWTHandler.validate_token
         (JWTHandler.generate_access_token user_id email name roles expires_delta issued)
         "access" now
       = Return (Some (mkTokenData (VStr user_id) (VStr email) (VStr name)
                         (VList roles) "access"))).
  { intros expires_delta issued now Hnow Hlive.
    destruct (decode_access_token user_id email name roles expires_delta issued now
                true Hnow (fun _ => Hlive))
      as (payload & Hdec & Hty & Hsub & Hemail & Hname & Hroles).
    rewrite (validate_token_Return_intro _ _ _ _ Hdec Hty).
    rewrite bool_decide_false by discriminate.
    by rewrite Hsub, Hemail, Hname, Hroles. }
  split; [exact Hgen|].
  intros now Hnow. apply Hgen; [lia|].
  apply default_lifetime_live; [assumption | unfold ACCESS_TOKEN_EXPIRY; lia].
Qed.

(** The scenario of [test_validate_valid_access_token]. *)
Lemma issue_validate_roundtrip_witness :
  JWTHandler.validate_token
    (JWTHandler.generate_access_token "550e8400-e29b-41d4-a716-446655440000"
       "user@example.com" "Test User" ["admin"; "staff_manager"]%string None 1771329600000000)
    "access" 1771329600000000
  = Return (Some (mkTokenData (VStr "550e8400-e29b-41d4-a716-446655440000")
                    (VStr "user@example.com") (VStr "Test User")
                    (VList ["admin"; "staff_manager"]%string) "access")).
Proof.
  apply (proj2 (issue_validate_roundtrip "550e8400-e29b-41d4-a716-446655440000"%string
                  "user@example.com"%string "Test User"%string
                  ["admin"; "staff_manager"]%string) 1771329600000000).
  lia.
Defined.

(** ** Refreshing an access token *)

(** C2. When the refresh token validates and its embedded subject differs
    from the supplied subject, [refresh_access_token] fails with
    [SubjectMismatch]; whenever it returns a token, the refresh token
    embeds the supplied subject and the token returned is the access
    token issued for that subject, so no refresh token whose embedded
    subject differs from the supplied one ever yields a token. *)
Theorem refresh_access_token_subject :
  forall refresh_token user_id email name roles now,
    (forall token_data,
       JWTHandler.validate_token refresh_token "refresh" now = Return (Some token_data) ->
       sub token_data <> VStr user_id ->
       JWTHandler.refresh_access_token refresh_token user_id email name roles now
       = Raise (ValueError SubjectMismatch))
    /\ (forall issued,
          JWTHandler.refresh_access_token refresh_token user_id email name roles now
          = Return issued ->
          (exists j, refresh_token = jwt.Compact j
                     /\ jwt.jws_payload j !! "sub"%string = Some (VStr user_id))
          /\ issued = JWTHandler.generate_access_token user_id email name roles None now)
    /\ (forall j,
          refresh_token = jwt.Compact j ->
          jwt.jws_payload j !! "sub"%string <> Some (VStr user_id) ->
          returns (JWTHandler.refresh_access_token refresh_token user_id email name
                     roles now) = false).
Proof.
  intros refresh_token user_id email name roles now.
  assert (Hret : forall issued,
          JWTHandler.refresh_access_token refresh_token user_id email name roles now
          = Return issued ->
          (exists j, refresh_token = jwt.Compact j
                     /\ jwt.jws_payload j !! "sub"%string = Some (VStr user_id))
          /\ issued = JWTHandler.generate_access_token user_id email name roles None now).
  { intros issued H. unfold JWTHandler.refresh_access_token in H.
    apply bind_Return_inv in H as (r & Hval & H).
    apply validate_token_Return_inv in Hval
      as (payload & Hdec & _ & td & -> & _ & Hsub).
    case_bool_decide as Hne; [discriminate|]. injection H as <-.
    apply decode_Return_inv in Hdec as (j & -> & -> & _).
    split; [|reflexivity]. exists j. split; [reflexivity|].
    apply dict_get_VStr_lookup. by rewrite <- Hsub. }
  split; [|split].
  - intros token_data Hval Hne. unfold JWTHandler.refresh_access_token.
    rewrite Hval. simpl. by rewrite bool_decide_true.
  - exact Hret.
  - intros j -> Hsub.
    destruct (JWTHandler.refresh_access_token _ _ _ _ _ _) as [issued|e] eqn:H;
      [|reflexivity].
    destruct (Hret issued eq_refl) as [(j' & [= <-] & Hsub') _]. contradiction.
Qed.

(** The scenario of [test_refresh_with_mismatched_user_id]. *)
Lemma refresh_access_token_subject_witness :
  JWTHandler.refresh_access_token
    (JWTHandler.generate_refresh_token "550e8400-e29b-41d4-a716-446655440000" None 1000000)
    "550e8400-e29b-41d4-a716-446655440001" "user@example.com" "Test User"
    ["admin"%string] 2000000
  = Raise (ValueError SubjectMismatch).
Proof.
  apply (proj1 (refresh_access_token_subject
                  (JWTHandler.generate_refresh_token
                     "550e8400-e29b-41d4-a716-446655440000" None 1000000)
                  "550e8400-e29b-41d4-a716-446655440001"%string
                  "user@example.com"%string "Test User"%string ["admin"%string] 2000000)
          (mkTokenData (VStr "550e8400-e29b-41d4-a716-446655440000")
             (VStr "") (VStr "") (VList []) "refresh")).
  - vm_compute. reflexivity.
  - discriminate.
Defined.

(** ** Expired tokens and the remaining lifetime *)




(** With the expiry check enabled, a token that otherwise decodes fails
    exactly as its expiry check does. *)
Lemma decode_expiry_failure tok now payload e :
  jwt.decode tok PUBLIC_KEY [ALGORITHM] TOKEN_AUDIENCE TOKEN_ISSUER false now
  = Return payload ->
  jwt.validate_exp payload now = Raise e ->
  jwt.decode tok PUBLIC_KEY [ALGORITHM] TOKEN_AUDIENCE TOKEN_ISSUER true now
  = Raise e.
Proof.
  intros Hdec Hexp. apply decode_Return_inv in Hdec
    as (j & -> & -> & Halg & Hsig & Hiat & Hnbf & _ & _).
  unfold jwt.decode. rewrite bool_decide_true by assumption.
  rewrite Hsig. cbn [negb]. rewrite Hiat, Hnbf, Hexp. reflexivity.
Qed.







(** ** The permission resolver *)

Lemma get_inherited_permissions_nil : get_inherited_permissions [] = ∅.
Proof.
  unfold get_inherited_permissions. simpl.
  repeat (rewrite bool_decide_false by set_solver). reflexivity.
Qed.

(** Inheritance only adds permissions. *)
Lemma get_inherited_permissions_extends (permissions : list string) (p : string) :
  p ∈ permissions -> p ∈ get_inherited_permissions permissions.
Proof.
  intros Hp. unfold get_inherited_permissions.
  repeat match goal with |- context [if ?b then _ else _] => destruct b end;
    set_solver.
Qed.

(** Deleting a form implies editing it. *)
Lemma get_inherited_permissions_delete_edit (permissions : list string) :
  Permission.FORM_DELETE ∈ permissions ->
  Permission.FORM_EDIT ∈ get_inherited_permissions permissions.
Proof.
  intros Hp. unfold get_inherited_permissions.
  rewrite (bool_decide_true (Permission.FORM_DELETE ∈ list_to_set permissions))
    by set_solver.
  simpl.
  repeat match goal with |- context [if ?b then _ else _] => destruct b end;
    set_solver.
Qed.

(** Each assignment contributes a set that does not depend on the
    permissions collected so far. *)
Lemma add_role_permissions_union db acc ur :
  add_role_permissions db acc ur = acc ∪ add_role_permissions db ∅ ur.
Proof.
  unfold add_role_permissions.
  destruct (role_of db ur) as [role|]; [|set_solver].
  destruct (r_is_active role && _); [|set_solver].
  destruct (r_permissions role); set_solver.
Qed.

Lemma add_role_permissions_comm db acc ur1 ur2 :
  add_role_permissions db (add_role_permissions db acc ur1) ur2
  = add_role_permissions db (add_role_permissions db acc ur2) ur1.
Proof.
  rewrite (add_role_permissions_union db (add_role_permissions db acc ur1) ur2).
  rewrite (add_role_permissions_union db (add_role_permissions db acc ur2) ur1).
  rewrite (add_role_permissions_union db acc ur1).
  rewrite (add_role_permissions_union db acc ur2).
  set_solver.
Qed.

Lemma collect_permutation db (l l' : list UserRole) :
  l ≡ₚ l' ->
  forall acc, foldl (add_role_permissions db) acc l
              = foldl (add_role_permissions db) acc l'.
Proof.
  induction 1 as [|ur l l' _ IH|ur1 ur2 l|l1 l2 l3 _ IH1 _ IH2]; intros acc; simpl.
  - reflexivity.
  - apply IH.
  - by rewrite add_role_permissions_comm.
  - by rewrite IH1, IH2.
Qed.

Lemma collect_mono db (l : list UserRole) (acc : gset string) (p : string) :
  p ∈ acc -> p ∈ foldl (add_role_permissions db) acc l.
Proof.
  revert acc. induction l as [|ur l IH]; intros acc Hp; simpl; [assumption|].
  apply IH. rewrite add_role_permissions_union. set_solver.
Qed.

Lemma collect_granted db (l : list UserRole) (acc : gset string) ur role (p : string) :
  ur ∈ l ->
  role_of db ur = Some role ->
  r_is_active role = true ->
  r_deleted_at role = None ->
  role_grants role p ->
  p ∈ foldl (add_role_permissions db) acc l.
Proof.
  intros Hin Hrole Hact Hdel Hgr. revert acc.
  induction l as [|ur' l IH]; intros acc; [by apply elem_of_nil in Hin|].
  apply elem_of_cons in Hin as [<-|Hin]; simpl; [|by apply IH].
  apply collect_mono. unfold add_role_permissions, role_grants in *.
  rewrite Hrole, Hact, Hdel. simpl.
  destruct (r_permissions role); [set_solver | set_solver | contradiction].
Qed.

(** C3. For a principal that is absent from the store, or that has no
    role assignment that is not soft-deleted, [get_user_permissions]
    returns the empty set and [has_permission] is false for every
    permission. *)
Theorem no_assignment_no_permission :
  forall user_id db,
    first_user user_id db = None \/ active_user_roles user_id db = [] ->
    get_user_permissions user_id db = ∅
    /\ forall permission, has_permission user_id permission db = false.
Proof.
  intros user_id db H.
  assert (Hempty : get_user_permissions user_id db = ∅).
  { unfold get_user_permissions. destruct H as [-> | Hnone]; [reflexivity|].
    destruct (first_user user_id db); [|reflexivity].
    rewrite Hnone. simpl. rewrite elements_empty.
    apply get_inherited_permissions_nil. }
  split; [exact Hempty|].
  intros permission. unfold has_permission. rewrite Hempty.
  apply bool_decide_eq_false. set_solver.
Qed.

(** C4. When the principal exists and one of its assignments that is not
    soft-deleted refers to an active, not soft-deleted role granting
    [form:delete], the resolved set contains [form:edit]; and two stores
    that hold the same users, roles and assignments, the assignments in
    any order, resolve every principal to the same set. *)
Theorem delete_implies_edit_any_order :
  forall user_id db,
    (forall ur role,
       is_Some (first_user user_id db) ->
       ur ∈ active_user_roles user_id db ->
       role_of db ur = Some role ->
       r_is_active role = true ->
       r_deleted_at role = None ->
       role_grants role Permission.FORM_DELETE ->
       Permission.FORM_EDIT ∈ get_user_permissions user_id db)
    /\ (forall db',
          users db' = users db ->
          roles_table db' = roles_table db ->
          user_roles db' ≡ₚ user_roles db ->
          get_user_permissions user_id db' = get_user_permissions user_id db).
Proof.
  intros user_id db. split.
  - intros ur role [u Hu] Hin Hrole Hact Hdel Hgr.
    unfold get_user_permissions. rewrite Hu.
    apply get_inherited_permissions_delete_edit.
    apply elem_of_elements. by eapply collect_granted.
  - intros db' Husers Hroles Hperm. unfold get_user_permissions.
    replace (first_user user_id db') with (first_user user_id db)
      by (unfold first_user; by rewrite Husers).
    destruct (first_user user_id db); [|reflexivity].
    f_equal. f_equal.
    assert (Hadd : add_role_permissions db' = add_role_permissions db).
    { unfold add_role_permissions, role_of. by rewrite Hroles. }
    rewrite Hadd. apply collect_permutation.
    unfold active_user_roles. by rewrite Hperm.
Qed.

(** A principal unknown to the store of the fixtures, as in
    [test_get_user_permissions_nonexistent_user]. *)
Lemma no_assignment_no_permission_witness :
  get_user_permissions (VStr "00000000-0000-4000-8000-000000000000") fixture_store = ∅
  /\ forall permission,
       has_permission (VStr "00000000-0000-4000-8000-000000000000") permission
         fixture_store = false.
Proof.
  apply (no_assignment_no_permission (VStr "00000000-0000-4000-8000-000000000000")
           fixture_store).
  left. vm_compute. reflexivity.
Defined.

(** The administrator of the fixtures holds [form:edit]. *)
Lemma delete_implies_edit_any_order_witness :
  Permission.FORM_EDIT ∈ get_user_permissions (sub token_data_admin) fixture_store.
Proof.
  apply (proj1 (delete_implies_edit_any_order (sub token_data_admin) fixture_store)
           admin_assignment admin_role).
  - eexists. vm_compute. reflexivity.
  - apply (bool_decide_unpack _). vm_compute. reflexivity.
  - vm_compute. reflexivity.
  - reflexivity.
  - reflexivity.
  - unfold role_grants. simpl. apply (bool_decide_unpack _). vm_compute. reflexivity.
Defined.

(** ** The audit recorder *)



(** In a session none of whose coming operations fails, the next one does
    not, and leaves such a session. *)
Lemma next_fault_sound s :
  true ∉ faults s ->
  exists s', next_fault s = (false, s') /\ true ∉ faults s'.
Proof.
  unfold next_fault. destruct (faults s) as [|[|] rest] eqn:Hf; intros Hno.
  - exists s. by rewrite Hf.
  - exfalso. apply Hno. left.
  - eexists. split; [reflexivity|]. cbn [faults]. intros Hin. apply Hno. by right.
Qed.


Lemma db_rollback_sound s : true ∉ faults s -> fst (db_rollback s) = Return tt.
Proof.
  intros Hno. unfold db_rollback.
  destruct (next_fault_sound s Hno) as (s' & -> & _). reflexivity.
Qed.


(** It returns normally when the rollback that follows a failure of the
    body does not fail. *)
Lemma try_except_rollback_sound (body : DB unit) (s : Session) :
  true ∉ faults (snd (body s)) ->
  fst (try_except body (fun _ => db_rollback) s) = Return tt.
Proof.
  unfold try_except. destruct (body s) as [[[]|e] s'] eqn:Hbody; cbn [snd];
    [reflexivity | apply db_rollback_sound].
Qed.

(** The operations of the store use up the fault plan and add nothing to
    it. *)
Lemma query_first_user_faults user_id s :
  true ∉ faults s -> true ∉ faults (snd (query_first_user user_id s)).
Proof.
  intros Hno. unfold query_first_user.
  destruct (next_fault_sound s Hno) as (s' & -> & Hno'). exact Hno'.
Qed.

Lemma db_add_faults row s : true ∉ faults s -> true ∉ faults (snd (db_add row s)).
Proof.
  intros Hno. unfold db_add.
  destruct (next_fault_sound s Hno) as (s' & -> & Hno'). exact Hno'.
Qed.

Lemma db_commit_faults s : true ∉ faults s -> true ∉ faults (snd (db_commit s)).
Proof.
  intros Hno. unfold db_commit.
  destruct (next_fault_sound s Hno) as (s' & -> & Hno').
  by destruct (forallb _ _).
Qed.

Lemma db_bind_faults {A B} (m : DB A) (k : A -> DB B) s :
  true ∉ faults (snd (m s)) ->
  (forall a s', true ∉ faults s' -> true ∉ faults (snd (k a s'))) ->
  true ∉ faults (snd (db_bind m k s)).
Proof.
  intros Hm Hk. unfold db_bind. destruct (m s) as [[a|e] s']; auto.
Qed.


Lemma fk_user_ok_absent s row :
  a_user_id row <> VNull -> first_user (a_user_id row) s = None ->
  fk_user_ok s row = false.
Proof.
  unfold fk_user_ok.
  destruct (a_user_id row); intros Hnn Habsent; try contradiction;
    rewrite Habsent; apply bool_decide_eq_false; by intros [? ?].
Qed.


(** Both recorders return normally when no operation of the store fails;
    the refusal of a row by the foreign key is then rolled back. *)
Lemma record_permission_check_returns user_id permission allowed resource action
    details s :
  true ∉ faults s ->
  fst (record_permission_check user_id permission allowed resource action details s)
  = Return tt.
Proof.
  intros Hno. unfold record_permission_check. apply try_except_rollback_sound.
  apply db_bind_faults; [by apply query_first_user_faults|].
  intros [u|] s' Hno'; [|exact Hno'].
  apply db_bind_faults; [by apply db_add_faults|].
  intros _ s'' Hno''. by apply db_commit_faults.
Qed.

Lemma log_permission_check_returns user_id permission allowed resource action
    details s :
  true ∉ faults s ->
  fst (log_permission_check user_id permission allowed resource action details (Some s))
  = Return tt.
Proof.
  intros Hno. simpl.
  destruct (negb allowed || _); [|reflexivity].
  pose proof (record_permission_check_returns user_id permission allowed resource
                action details s Hno) as Hret.
  by destruct (record_permission_check _ _ _ _ _ _ s).
Qed.




(** A commit that fails is rolled back and the caller sees a normal
    return. *)
Lemma log_permission_check_failing_commit :
  log_permission_check (sub token_data_reviewer) Permission.USER_MANAGE_ROLES false
    (Some "users"%string) (Some "manage_roles"%string) None (Some failing_commit_store)
  = (Return tt, Some fixture_store).
Proof. vm_compute. reflexivity. Qed.

(** The scenario of [test_log_permission_check_failed_attempt]. *)
Lemma log_permission_check_failed_attempt :
  audit_log (session_after fixture_store
               (log_permission_check (sub token_data_reviewer)
                  Permission.USER_MANAGE_ROLES false (Some "users"%string)
                  (Some "manage_roles"%string) None (Some fixture_store)))
  = [permission_check_entry (sub token_data_reviewer) Permission.USER_MANAGE_ROLES
       false (Some "users"%string) (Some "manage_roles"%string) None].
Proof. vm_compute. reflexivity. Qed.

(** ** The authorization gate and the audit trail *)

Lemma occurs_append (c : ascii) (a b : string) :
  occurs c (a +:+ b) = occurs c a || occurs c b.
Proof.
  induction a as [|c' a IH]; simpl; [reflexivity|].
  rewrite IH. apply orb_assoc.
Qed.

(** Joining two or more strings leaves the separator in the result. *)
Lemma occurs_concat (c : ascii) (p q : string) (rest : list string) :
  occurs c (String.concat (String c EmptyString) (p :: q :: rest)) = true.
Proof.
  cbn [String.concat]. rewrite occurs_append.
  change (String c EmptyString ++ ?t)%string with (String c t).
  cbn [occurs]. rewrite Ascii.eqb_refl. simpl. apply orb_true_r.
Qed.

Lemma joined_not_sensitive (c : ascii) (p q : string) (rest : list string) :
  forallb (fun s => negb (occurs c s)) SENSITIVE_PERMISSIONS = true ->
  String.concat (String c EmptyString) (p :: q :: rest) ∉ SENSITIVE_PERMISSIONS.
Proof.
  intros Hnone Hin. rewrite forallb_forall in Hnone.
  apply list_elem_of_In in Hin. apply Hnone in Hin.
  by rewrite occurs_concat in Hin.
Qed.

(** A successful check of two or more permissions is never recorded,
    whatever the permissions are. *)
Lemma multi_permission_grant_not_logged (user_id : value) (p q : string)
    (rest : list string) (db : Session) :
  log_permission_check user_id (String.concat "|" (p :: q :: rest)) true
    None None None (Some db) = (Return tt, Some db)
  /\ log_permission_check user_id (String.concat "&" (p :: q :: rest)) true
       None None None (Some db) = (Return tt, Some db).
Proof.
  unfold log_permission_check. cbn [negb orb].
  rewrite !bool_decide_false; [done | |];
    apply joined_not_sensitive; vm_compute; reflexivity.
Qed.

(** [require_permission] records a check exactly when it is denied or its
    permission is sensitive. *)
Lemma require_permission_audit resource action permission user db :
  get_permission_for_resource_action resource action = Return permission ->
  snd (require_permission resource action user db)
  = if negb (has_permission (sub user) permission db)
       || bool_decide (permission ∈ SENSITIVE_PERMISSIONS)
    then snd (record_permission_check (sub user) permission
                (has_permission (sub user) permission db)
                (Some resource) (Some action) None db)
    else db.
Proof.
  intros Hres. unfold require_permission, session_after. rewrite Hres. cbv zeta.
  unfold log_permission_check.
  destruct (negb (has_permission (sub user) permission db) || _).
  - destruct (record_permission_check _ _ _ _ _ _ db) as [[[]|e] s']; cbn [fst snd];
      [|reflexivity].
    by destruct (negb (has_permission (sub user) permission db)).
  - cbn [fst snd]. by destruct (negb (has_permission (sub user) permission db)).
Qed.

(** A denial by [require_any_permission] or [require_all_permissions] is
    handed to the recorder. *)
Lemma require_any_all_denied_recorded permissions user db :
  (has_any_permission (sub user) permissions db = false ->
   snd (require_any_permission permissions user db)
   = snd (record_permission_check (sub user) (String.concat "|" permissions) false
            None None None db))
  /\ (has_all_permissions (sub user) permissions db = false ->
      snd (require_all_permissions permissions user db)
      = snd (record_permission_check (sub user) (String.concat "&" permissions) false
               None None None db)).
Proof.
  split; intros Hden.
  - unfold require_any_permission, session_after. rewrite Hden. cbv zeta. cbn [negb].
    unfold log_permission_check. cbn [negb orb].
    by destruct (record_permission_check _ _ _ _ _ _ db) as [[[]|e] s'].
  - unfold require_all_permissions, session_after. rewrite Hden. cbv zeta. cbn [negb].
    unfold log_permission_check. cbn [negb orb].
    by destruct (record_permission_check _ _ _ _ _ _ db) as [[[]|e] s'].
Qed.

(** A grant by [require_any_permission] or [require_all_permissions] of
    two or more permissions leaves the store untouched. *)
Lemma require_any_all_granted_not_recorded p q rest user db :
  (has_any_permission (sub user) (p :: q :: rest) db = true ->
   require_any_permission (p :: q :: rest) user db = (Return user, db))
  /\ (has_all_permissions (sub user) (p :: q :: rest) db = true ->
      require_all_permissions (p :: q :: rest) user db = (Return user, db)).
Proof.
  destruct (multi_permission_grant_not_logged (sub user) p q rest db) as [Hany Hall].
  split; intros Hgr.
  - unfold require_any_permission, session_after. rewrite Hgr. cbv zeta. cbn [negb].
    by rewrite Hany.
  - unfold require_all_permissions, session_after. rewrite Hgr. cbv zeta. cbn [negb].
    by rewrite Hall.
Qed.

(** C7, at the failing input.  The administrator of the fixtures holds
    [role:create] and [role:delete], both on the sensitive list.  The
    successful check of the two through [require_all_permissions] or
    [require_any_permission] leaves the store untouched: no audit row is
    written.  The successful check of [role:create] alone through
    [require_permission] writes its audit row. *)
Theorem sensitive_grant_not_recorded :
  has_all_permissions (sub token_data_admin)
    [Permission.ROLE_CREATE; Permission.ROLE_DELETE] fixture_store = true
  /\ Forall (fun p => p ∈ SENSITIVE_PERMISSIONS)
       [Permission.ROLE_CREATE; Permission.ROLE_DELETE]
  /\ require_all_permissions [Permission.ROLE_CREATE; Permission.ROLE_DELETE]
       token_data_admin fixture_store
     = (Return token_data_admin, fixture_store)
  /\ require_any_permission [Permission.ROLE_CREATE; Permission.ROLE_DELETE]
       token_data_admin fixture_store
     = (Return token_data_admin, fixture_store)
  /\ fst (require_permission "roles" "create" token_data_admin fixture_store)
     = Return token_data_admin
  /\ audit_log (snd (require_permission "roles" "create" token_data_admin fixture_store))
     = [permission_check_entry (sub token_data_admin) Permission.ROLE_CREATE true
          (Some "roles"%string) (Some "create"%string) None].
Proof.
  assert (Hall : has_all_permissions (sub token_data_admin)
            [Permission.ROLE_CREATE; Permission.ROLE_DELETE] fixture_store = true)
    by (vm_compute; reflexivity).
  assert (Hany : has_any_permission (sub token_data_admin)
            [Permission.ROLE_CREATE; Permission.ROLE_DELETE] fixture_store = true)
    by (vm_compute; reflexivity).
  split; [exact Hall|]. split.
  { repeat constructor; apply (bool_decide_unpack _); vm_compute; reflexivity. }
  split.
  { exact (proj2 (require_any_all_granted_not_recorded _ _ _ _ _) Hall). }
  split.
  { exact (proj1 (require_any_all_granted_not_recorded _ _ _ _ _) Hany). }
  split; vm_compute; reflexivity.
Qed.

(** ** The permission catalog *)

(** C9. [get_permission_for_resource_action] returns a permission exactly
    for the registered pairs, and then the registered one; for every
    other pair it raises the [ValueError] naming the unknown resource or
    the unknown action, never a default.  In particular
    [("forms", "archive")] resolves to [form:archive] and
    [("unknown", "read")] is refused. *)
Theorem resolve_resource_action :
  forall resource action,
    (forall permission,
       registered resource action permission
       <-> get_permission_for_resource_action resource action = Return permission)
    /\ ((~ exists permission, registered resource action permission)
        <-> get_permission_for_resource_action resource action
            = Raise (ValueError (UnknownResource resource))
            \/ get_permission_for_resource_action resource action
               = Raise (ValueError (UnknownAction action resource)))
    /\ get_permission_for_resource_action "forms" "archive" = Return "form:archive"%string
    /\ get_permission_for_resource_action "unknown" "read"
       = Raise (ValueError (UnknownResource "unknown")).
Proof.
  intros resource action.
  assert (Hiff : forall permission,
       registered resource action permission
       <-> get_permission_for_resource_action resource action = Return permission).
  { intros permission. unfold registered, get_permission_for_resource_action. split.
    - intros (actions & -> & ->). reflexivity.
    - destruct (RESOURCE_ACTION_PERMISSIONS !! resource) as [actions|]; [|discriminate].
      destruct (actions !! action) as [p|] eqn:Hact; [|discriminate].
      intros [= <-]. eauto. }
  split; [exact Hiff|]. split; [|split; vm_compute; reflexivity].
  split.
  - intros Hnone.
    destruct (get_permission_for_resource_action resource action) as [p|e] eqn:Hget.
    + exfalso. apply Hnone. exists p. by apply Hiff.
    + unfold get_permission_for_resource_action in Hget.
      destruct (RESOURCE_ACTION_PERMISSIONS !! resource) as [actions|];
        [|left; congruence].
      destruct (actions !! action); [discriminate | right; congruence].
  - intros Hraise (permission & Hreg). apply Hiff in Hreg.
    rewrite Hreg in Hraise. by destruct Hraise.
Qed.

(** The scenario of the specification: archiving a form. *)
Lemma resolve_resource_action_witness :
  get_permission_for_resource_action "forms" "archive" = Return Permission.FORM_ARCHIVE.
Proof.
  apply (proj1 (proj1 (resolve_resource_action "forms"%string "archive"%string)
                  Permission.FORM_ARCHIVE)).
  eexists. split; vm_compute; reflexivity.
Defined.

(** ** Per-request authentication *)



(** * Further properties of the code *)

(** ** ANY and ALL over the resolved set *)

(** [has_any_permission] holds exactly when one of the listed permissions
    is held, [has_all_permissions] exactly when each of them is; so the
    empty list is never satisfied by ANY and always by ALL. *)
Theorem has_any_all_permissions_spec (user_id : value) (permissions : list string)
    (db : Session) :
  (has_any_permission user_id permissions db = true
   <-> exists p, p ∈ permissions /\ has_permission user_id p db = true)
  /\ (has_all_permissions user_id permissions db = true
      <-> forall p, p ∈ permissions -> has_permission user_id p db = true)
  /\ has_any_permission user_id [] db = false
  /\ has_all_permissions user_id [] db = true.
Proof.
  unfold has_any_permission, has_all_permissions, has_permission.
  split; [|split; [|split; reflexivity]].
  - rewrite existsb_exists. split.
    + intros (p & Hin & Hp). exists p. by rewrite <- list_elem_of_In in Hin.
    + intros (p & Hin & Hp). exists p. by rewrite <- list_elem_of_In.
  - rewrite forallb_forall. split.
    + intros H p Hin. apply H. by apply list_elem_of_In.
    + intros H p Hin. apply H. by apply list_elem_of_In.
Qed.

(** ** Decisions of the authorization gate *)

(** [require_any_permission] and [require_all_permissions] never return
    the user unless [has_any_permission], respectively
    [has_all_permissions], holds, whatever the store does.  When no
    operation of the store fails they decide exactly as these two do:
    they return the user when the check holds and raise the 403 listing
    the permissions when it does not. *)
Theorem require_any_all_decision (permissions : list string) (user : TokenData)
    (db : Session) :
  (forall u,
     fst (require_any_permission permissions user db) = Return u ->
     u = user /\ has_any_permission (sub user) permissions db = true)
  /\ (forall u,
        fst (require_all_permissions permissions user db) = Return u ->
        u = user /\ has_all_permissions (sub user) permissions db = true)
  /\ (true ∉ faults db ->
      fst (require_any_permission permissions user db)
      = (if has_any_permission (sub user) permissions db
         then Return user
         else Raise (HTTPException HTTP_403_FORBIDDEN (RequiredOneOf permissions)))
      /\ fst (require_all_permissions permissions user db)
         = (if has_all_permissions (sub user) permissions db
            then Return user
            else Raise (HTTPException HTTP_403_FORBIDDEN (RequiredAllOf permissions)))).
Proof.
  unfold require_any_permission, require_all_permissions. split; [|split].
  - intros u. destruct (has_any_permission (sub user) permissions db); cbv zeta;
      cbn [negb]; destruct (fst (log_permission_check _ _ _ _ _ _ _)) as [[]|e];
      cbn [fst]; try discriminate.
    by intros [= <-].
  - intros u. destruct (has_all_permissions (sub user) permissions db); cbv zeta;
      cbn [negb]; destruct (fst (log_permission_check _ _ _ _ _ _ _)) as [[]|e];
      cbn [fst]; try discriminate.
    by intros [= <-].
  - intros Hno. split.
    + destruct (has_any_permission (sub user) permissions db); cbv zeta; cbn [negb];
        by rewrite log_permission_check_returns.
    + destruct (has_all_permissions (sub user) permissions db); cbv zeta; cbn [negb];
        by rewrite log_permission_check_returns.
Qed.

(** The reviewer of the fixtures asking for one of the two permissions on
    roles. *)
Lemma require_any_all_decision_witness :
  fst (require_any_permission [Permission.ROLE_CREATE; Permission.ROLE_DELETE]
         token_data_reviewer fixture_store)
  = Raise (HTTPException HTTP_403_FORBIDDEN
             (RequiredOneOf [Permission.ROLE_CREATE; Permission.ROLE_DELETE])).
Proof.
  rewrite (proj1 (proj2 (proj2 (require_any_all_decision
                                  [Permission.ROLE_CREATE; Permission.ROLE_DELETE]
                                  token_data_reviewer fixture_store))
                    ltac:(vm_compute; apply not_elem_of_nil))).
  vm_compute. reflexivity.
Defined.

(** [require_permission] answers 500 for a pair that is not registered,
    leaving the store untouched.  For a registered pair it never returns
    the user unless the permission is held, whatever the store does, and
    when no operation of the store fails it returns the user when the
    permission is held and raises the 403 naming [resource:action] when it
    is not. *)
Theorem require_permission_decision (resource action : string) (user : TokenData)
    (db : Session) :
  (forall e,
     get_permission_for_resource_action resource action = Raise (ValueError e) ->
     require_permission resource action user db
     = (Raise (HTTPException HTTP_500_INTERNAL_SERVER_ERROR (ConfigurationError e)), db))
  /\ (forall permission,
        get_permission_for_resource_action resource action = Return permission ->
        (forall u,
           fst (require_permission resource action user db) = Return u ->
           u = user /\ has_permission (sub user) permission db = true)
        /\ (true ∉ faults db ->
            fst (require_permission resource action user db)
            = (if has_permission (sub user) permission db
               then Return user
               else Raise (HTTPException HTTP_403_FORBIDDEN
                             (InsufficientPermissions (resource +:+ ":" +:+ action)))))).
Proof.
  unfold require_permission. split.
  - intros e ->. reflexivity.
  - intros permission ->. cbv zeta. split.
    + intros u.
      destruct (fst (log_permission_check _ _ _ _ _ _ _)) as [[]|e]; cbn [fst];
        [|discriminate].
      destruct (has_permission (sub user) permission db); cbn [negb fst];
        [|discriminate].
      by intros [= <-].
    + intros Hno. rewrite log_permission_check_returns by assumption.
      by destruct (has_permission (sub user) permission db).
Qed.

(** The reviewer of the fixtures asking to manage user roles. *)
Lemma require_permission_decision_witness :
  fst (require_permission "users" "manage_roles" token_data_reviewer fixture_store)
  = Raise (HTTPException HTTP_403_FORBIDDEN
             (InsufficientPermissions "users:manage_roles")).
Proof.
  rewrite (proj2 (proj2 (require_permission_decision "users" "manage_roles"
                           token_data_reviewer fixture_store)
                    Permission.USER_MANAGE_ROLES ltac:(vm_compute; reflexivity))
             ltac:(vm_compute; apply not_elem_of_nil)).
  vm_compute. reflexivity.
Defined.




(** ** [is_admin] *)

Lemma or_empty_list_VList (l : list string) :
  py_in "admin" (or_empty_list (VList l)) = Return (bool_decide ("admin"%string ∈ l)).
Proof.
  destruct l as [|r l]; reflexivity.
Qed.

Lemma existsb_filter {A} (f g : A -> bool) (l : list A) :
  existsb f (List.filter g l) = true
  <-> exists x, x ∈ l /\ g x = true /\ f x = true.
Proof.
  rewrite existsb_exists. split.
  - intros (x & Hin & Hf). apply filter_In in Hin as [Hin Hg].
    exists x. by rewrite list_elem_of_In.
  - intros (x & Hin & Hg & Hf). exists x. split; [|done].
    apply filter_In. by rewrite <- list_elem_of_In.
Qed.

(** [is_admin] trusts the token first: a role list containing "admin"
    makes the user an administrator whatever the store holds.  Otherwise
    the user is an administrator exactly when one of its assignments that
    is not soft-deleted refers to an active role named "admin". *)
Theorem is_admin_spec (user : TokenData) (db : Session) (l : list string) :
  roles user = VList l ->
  ("admin"%string ∈ l -> is_admin user db = Return true)
  /\ ("admin"%string ∉ l ->
      exists b, is_admin user db = Return b
        /\ (b = true <->
            exists ur role,
              ur ∈ active_user_roles (sub user) db
              /\ role_of db ur = Some role
              /\ r_is_active role = true
              /\ r_name role = "admin"%string)).
Proof.
  intros Hroles. unfold is_admin. rewrite Hroles, or_empty_list_VList. split.
  - intros Hin. by rewrite bool_decide_true.
  - intros Hnin. rewrite bool_decide_false by assumption. simpl.
    eexists. split; [reflexivity|]. rewrite existsb_filter.
    unfold has_active_role, role_is_named. split.
    + intros (ur & Hin & Hact & Hname).
      destruct (role_of db ur) as [role|] eqn:Hrole; [|discriminate].
      exists ur, role. repeat split; try assumption.
      by apply bool_decide_eq_true in Hname.
    + intros (ur & role & Hin & Hrole & Hact & Hname).
      exists ur. rewrite Hrole. repeat split; try assumption.
      by apply bool_decide_eq_true.
Qed.

(** The administrator of the fixtures, whatever the store. *)
Lemma is_admin_spec_witness :
  is_admin token_data_admin deleted_admin_store = Return true.
Proof.
  apply (proj1 (is_admin_spec token_data_admin deleted_admin_store ["admin"%string]
                  eq_refl)).
  apply (bool_decide_unpack _). vm_compute. reflexivity.
Defined.

(** The fallback of [is_admin] does not look at the soft-delete marker of
    the role: an assignment to an active but soft-deleted role named
    "admin" makes [is_admin] true although that role adds nothing to the
    permissions resolved by [get_user_permissions]. *)
Theorem is_admin_soft_deleted_role (user : TokenData) (db : Session)
    (l : list string) (ur : UserRole) (role : Role) (t : Z) :
  roles user = VList l ->
  ur ∈ active_user_roles (sub user) db ->
  role_of db ur = Some role ->
  r_name role = "admin"%string ->
  r_is_active role = true ->
  r_deleted_at role = Some t ->
  is_admin user db = Return true
  /\ forall acc, add_role_permissions db acc ur = acc.
Proof.
  intros Hroles Hin Hrole Hname Hact Hdel. split.
  - destruct (decide ("admin"%string ∈ l)) as [Hadm|Hadm].
    + unfold is_admin. rewrite Hroles, or_empty_list_VList.
      by rewrite bool_decide_true.
    + unfold is_admin. rewrite Hroles, or_empty_list_VList.
      rewrite bool_decide_false by assumption. simpl. f_equal.
      apply existsb_filter. exists ur.
      unfold has_active_role, role_is_named. rewrite Hrole.
      repeat split; try assumption. by apply bool_decide_eq_true.
  - intros acc. unfold add_role_permissions. rewrite Hrole, Hact, Hdel.
    reflexivity.
Qed.

(** The store whose [admin] role was soft-deleted. *)
Lemma is_admin_soft_deleted_role_witness :
  is_admin token_data_admin_no_roles deleted_admin_store = Return true
  /\ forall acc, add_role_permissions deleted_admin_store acc admin_assignment = acc.
Proof.
  apply (is_admin_soft_deleted_role token_data_admin_no_roles deleted_admin_store []
           admin_assignment
           (mkRole "admin" (PermList ADMIN_PERMISSIONS) true (Some 1771329600000000))
           1771329600000000).
  - reflexivity.
  - apply (bool_decide_unpack _). vm_compute. reflexivity.
  - vm_compute. reflexivity.
  - reflexivity.
  - reflexivity.
  - reflexivity.
Defined.

(** ** Role checkers of [backend/auth/dependencies.py] *)

Lemma any_role_in_VList (required_roles l : list string) :
  any_role_in required_roles (VList l)
  = Return (existsb (fun r => bool_decide (r ∈ l)) required_roles).
Proof.
  induction required_roles as [|r rest IH]; simpl; [reflexivity|].
  destruct (bool_decide (r ∈ l)); simpl; [reflexivity | exact IH].
Qed.

Lemma existsb_bool_decide (required_roles l : list string) :
  existsb (fun r => bool_decide (r ∈ l)) required_roles = true
  <-> exists r, r ∈ required_roles /\ r ∈ l.
Proof.
  rewrite existsb_exists. split.
  - intros (r & Hin & Hr). exists r. rewrite list_elem_of_In.
    split; [assumption|]. by apply bool_decide_eq_true in Hr.
  - intros (r & Hin & Hr). exists r. rewrite <- list_elem_of_In.
    split; [assumption|]. by apply bool_decide_eq_true.
Qed.

(** For a user whose token carries a list of role names, each role
    checker either returns the user or refuses with a 403, and returns
    the user exactly when the list holds one of the roles it asks for:
    "admin" for [require_admin], "admin" or "staff_manager" for
    [require_staff_manager], "admin" or "reviewer" for
    [require_reviewer], one of [required_roles] for
    [get_user_with_role]. *)
Theorem role_checkers_spec (user : TokenData) (l : list string) :
  roles user = VList l ->
  (require_admin user
   = if bool_decide ("admin"%string ∈ l) then Granted user
     else Refused HTTP_403_FORBIDDEN AdminRoleRequired)
  /\ (require_staff_manager user
      = if bool_decide ("admin"%string ∈ l \/ "staff_manager"%string ∈ l)
        then Granted user
        else Refused HTTP_403_FORBIDDEN StaffManagerOrAdminRequired)
  /\ (require_reviewer user
      = if bool_decide ("admin"%string ∈ l \/ "reviewer"%string ∈ l)
        then Granted user
        else Refused HTTP_403_FORBIDDEN ReviewerOrAdminRequired)
  /\ (forall required_roles,
        (get_user_with_role required_roles user = Granted user
         <-> exists r, r ∈ required_roles /\ r ∈ l)
        /\ (get_user_with_role required_roles user = Granted user
            \/ get_user_with_role required_roles user
               = Refused HTTP_403_FORBIDDEN (RequiredRoles required_roles))).
Proof.
  intros Hroles.
  split; [|split; [|split]].
  - unfold require_admin. rewrite Hroles. simpl.
    by destruct (bool_decide ("admin"%string ∈ l)).
  - unfold require_staff_manager. cbv zeta. rewrite Hroles, any_role_in_VList.
    simpl. rewrite orb_false_r.
    repeat case_bool_decide; simpl; try reflexivity; tauto.
  - unfold require_reviewer. cbv zeta. rewrite Hroles, any_role_in_VList.
    simpl. rewrite orb_false_r.
    repeat case_bool_decide; simpl; try reflexivity; tauto.
  - intros required_roles. unfold get_user_with_role.
    rewrite Hroles, any_role_in_VList.
    rewrite <- existsb_bool_decide.
    destruct (existsb _ required_roles); simpl; split; auto; try done.
Qed.

(** The fixed principal of the development mode passes [require_admin]. *)
Lemma role_checkers_spec_witness :
  require_admin demo_user = Granted demo_user.
Proof.
  rewrite (proj1 (role_checkers_spec demo_user ["admin"%string] eq_refl)).
  reflexivity.
Defined.

(** Whoever passes [require_admin] passes [require_staff_manager] and
    [require_reviewer], whatever the shape of the role claim. *)
Theorem require_admin_implies_others (user : TokenData) :
  require_admin user = Granted user ->
  require_staff_manager user = Granted user
  /\ require_reviewer user = Granted user.
Proof.
  unfold require_admin, require_staff_manager, require_reviewer. cbv zeta.
  cbn [any_role_in].
  destruct (py_in "admin" (roles user)) as [[|]|e]; simpl; try discriminate.
  auto.
Qed.

Lemma require_admin_implies_others_witness :
  require_staff_manager token_data_admin = Granted token_data_admin
  /\ require_reviewer token_data_admin = Granted token_data_admin.
Proof.
  apply (require_admin_implies_others token_data_admin).
  vm_compute. reflexivity.
Defined.

(** ** Authentication of a request *)

(** A live access token minted by the service authenticates, in every
    environment, to the principal it was issued for, and that principal
    passes [require_admin] exactly when the issued role list contains
    "admin". *)
Theorem issued_token_authenticates (env : option string)
    (user_id email name : string) (roles : list string)
    (expires_delta : option Z) (issued now : Z) :
  0 <= issued <= now ->
  now < expiry_instant issued (lifetime_of ACCESS_TOKEN_EXPIRY expires_delta) ->
  let principal := mkTokenData (VStr user_id) (VStr email) (VStr name)
                     (VList roles) "access" in
  get_current_user env
    (JWTHandler.generate_access_token user_id email name roles expires_delta issued) now
  = Return principal
  /\ (require_admin principal = Granted principal <-> "admin"%string ∈ roles).
Proof.
  intros Hnow Hlive principal. split.
  - unfold get_current_user.
    rewrite (bool_decide_false
               (JWTHandler.generate_access_token user_id email name roles
                  expires_delta issued = jwt.Opaque "demo-token")) by discriminate.
    rewrite andb_false_r.
    destruct (decode_access_token user_id email name roles expires_delta issued now
                true Hnow (fun _ => Hlive))
      as (payload & Hdec & Hty & Hsub & Hemail & Hname & Hroles).
    rewrite (validate_token_Return_intro _ _ _ _ Hdec Hty).
    rewrite bool_decide_false by discriminate.
    by rewrite Hsub, Hemail, Hname, Hroles.
  - unfold require_admin, principal. simpl.
    case_bool_decide; simpl; split; (done || (intros; done)).
Qed.

Lemma issued_token_authenticates_witness :
  get_current_user (Some "production"%string)
    (JWTHandler.generate_access_token "550e8400-e29b-41d4-a716-446655440000"
       "user@example.com" "Test User" ["reviewer"%string] None 1000000) 1000000
  = Return (mkTokenData (VStr "550e8400-e29b-41d4-a716-446655440000")
              (VStr "user@example.com") (VStr "Test User")
              (VList ["reviewer"%string]) "access").
Proof.
  apply (issued_token_authenticates (Some "production"%string)
           "550e8400-e29b-41d4-a716-446655440000" "user@example.com" "Test User"
           ["reviewer"%string] None 1000000 1000000).
  - lia.
  - reflexivity.
Defined.

(** [get_current_user_optional] never raises a [ValueError]: without
    credentials, or with a token that fails validation, it returns
    [None]; it returns a principal exactly when the token validates as an
    access token.  It knows no demo token: "demo-token" is anonymous even
    in development. *)
Theorem get_current_user_optional_spec (credentials : option jwt.token) (now : Z) :
  (forall token_data,
     get_current_user_optional credentials now = Return (Some token_data)
     <-> exists token,
           credentials = Some token
           /\ JWTHandler.validate_token token "access" now = Return (Some token_data))
  /\ (forall e, get_current_user_optional credentials now <> Raise (ValueError e))
  /\ (forall token e,
        credentials = Some token ->
        JWTHandler.validate_token token "access" now = Raise (ValueError e) ->
        get_current_user_optional credentials now = Return None)
  /\ get_current_user_optional None now = Return None
  /\ get_current_user_optional (Some (jwt.Opaque "demo-token")) now = Return None.
Proof.
  split; [|split; [|split; [|split; reflexivity]]].
  - intros token_data. unfold get_current_user_optional.
    destruct credentials as [token|].
    + destruct (JWTHandler.validate_token token "access" now) as [r|e] eqn:Hval.
      * split; [intros [= ->]; eauto | intros (t & [= <-] & Ht); congruence].
      * split; [destruct e; discriminate | intros (t & [= <-] & Ht); congruence].
    + split; [discriminate | intros (t & Ht & _); discriminate].
  - intros e. unfold get_current_user_optional.
    destruct credentials as [token|]; [|discriminate].
    destruct (JWTHandler.validate_token token "access" now) as [r|[]];
      discriminate.
  - intros token e -> Hval. unfold get_current_user_optional. by rewrite Hval.
Qed.

(** An expired access token is anonymous. *)
Lemma get_current_user_optional_spec_witness :
  get_current_user_optional
    (Some (JWTHandler.generate_access_token "550e8400-e29b-41d4-a716-446655440000"
             "user@example.com" "Test User" ["admin"%string] (Some 0) 1000000))
    2000000
  = Return None.
Proof.
  apply (proj1 (proj2 (proj2 (get_current_user_optional_spec
           (Some (JWTHandler.generate_access_token
                    "550e8400-e29b-41d4-a716-446655440000"
                    "user@example.com" "Test User" ["admin"%string] (Some 0) 1000000))
           2000000)))
           (JWTHandler.generate_access_token
              "550e8400-e29b-41d4-a716-446655440000"
              "user@example.com" "Test User" ["admin"%string] (Some 0) 1000000)
           Expired eq_refl).
  vm_compute. reflexivity.
Defined.

(** ** Login states *)

(** A login state is consumed by its validation: a state just generated
    validates once, the second validation of any state fails, and
    validating a state neither consumes nor creates any other state. *)
Theorem validate_state_once (state : string) (states : auth_states) :
  (forall drawn,
     validate_state (fst (generate_state drawn states))
       (snd (generate_state drawn states))
     = (true, delete drawn states))
  /\ fst (validate_state state (snd (validate_state state states))) = false
  /\ (states !! state = None -> validate_state state states = (false, states))
  /\ (forall other,
        other <> state ->
        snd (validate_state state states) !! other = states !! other).
Proof.
  unfold validate_state, generate_state. split; [|split; [|split]].
  - intros drawn. simpl. rewrite lookup_insert_eq.
    rewrite bool_decide_true by eauto. by rewrite delete_insert_eq.
  - destruct (decide (is_Some (states !! state))) as [Hin | Hin].
    + rewrite (bool_decide_true _ Hin). cbn [snd].
      rewrite lookup_delete_eq. rewrite bool_decide_false; [done|]. by intros [? ?].
    + rewrite (bool_decide_false _ Hin). cbn [snd].
      by rewrite (bool_decide_false _ Hin).
  - intros Hnone. rewrite Hnone. rewrite bool_decide_false; [done|]. by intros [? ?].
  - intros other Hne. case_bool_decide; simpl; [|done].
    by rewrite lookup_delete_ne.
Qed.

Lemma validate_state_once_witness :
  validate_state "never-issued" ∅ = (false, ∅).
Proof.
  apply (proj1 (proj2 (proj2 (validate_state_once "never-issued" ∅)))).
  reflexivity.
Defined.

(** ** Mapping of the roles of the identity provider *)

Lemma role_mapping_local (k r : string) :
  role_mapping !! k = Some r -> r ∈ LOCAL_ROLES /\ r <> ""%string.
Proof.
  unfold role_mapping. cbn [list_to_map foldr uncurry fst snd].
  repeat (rewrite lookup_insert; case_decide;
          [intros [= <-]; split; [set_solver | discriminate]|]).
  rewrite lookup_empty. discriminate.
Qed.

Lemma role_mapping_fixed (r : string) :
  r ∈ LOCAL_ROLES -> role_mapping !! lower r = Some r.
Proof.
  unfold LOCAL_ROLES. intros Hin.
  repeat (apply elem_of_cons in Hin as [-> | Hin]; [vm_compute; reflexivity|]).
  by apply elem_of_nil in Hin.
Qed.

Lemma add_local_role_inv (acc : list string) (k : string) :
  add_local_role acc k = acc
  \/ exists r, role_mapping !! lower k = Some r /\ (r ∉ acc)
               /\ add_local_role acc k = acc ++ [r].
Proof.
  unfold add_local_role.
  destruct (role_mapping !! lower k) as [r|] eqn:Hmap; [|by left].
  destruct (role_mapping_local _ _ Hmap) as [_ Hne].
  rewrite (bool_decide_false _ Hne). simpl.
  case_bool_decide as Hin; simpl; [by left|].
  right. exists r. auto.
Qed.

Lemma map_roles_invariant (keycloak_roles acc : list string) :
  NoDup acc ->
  (forall r, r ∈ acc -> r ∈ LOCAL_ROLES) ->
  NoDup (foldl add_local_role acc keycloak_roles)
  /\ (forall r, r ∈ foldl add_local_role acc keycloak_roles -> r ∈ LOCAL_ROLES)
  /\ (forall r, r ∈ foldl add_local_role acc keycloak_roles
                <-> r ∈ acc
                    \/ exists k, k ∈ keycloak_roles
                                 /\ role_mapping !! lower k = Some r).
Proof.
  revert acc. induction keycloak_roles as [|k rest IH]; intros acc Hnd Hloc; simpl.
  - split; [assumption|]. split; [assumption|].
    intros r. split; [auto|]. intros [H | (k & Hk & _)]; [assumption|].
    by apply elem_of_nil in Hk.
  - destruct (add_local_role_inv acc k) as [Heq | (r0 & Hmap & Hnin & Heq)];
      rewrite Heq.
    + destruct (IH acc Hnd Hloc) as (H1 & H2 & H3). split; [assumption|].
      split; [assumption|]. intros r. rewrite H3. split.
      * intros [H | (k' & Hk' & Hm)]; [by left|]. right. exists k'.
        split; [by apply elem_of_cons; right | assumption].
      * intros [H | (k' & Hk' & Hm)]; [by left|].
        apply elem_of_cons in Hk' as [-> | Hk']; [|right; eauto].
        left. unfold add_local_role in Heq. rewrite Hm in Heq.
        destruct (role_mapping_local _ _ Hm) as [_ Hne].
        rewrite (bool_decide_false _ Hne) in Heq. simpl in Heq.
        case_bool_decide as Hin; simpl in Heq; [assumption|].
        exfalso. apply (f_equal length) in Heq. rewrite length_app in Heq.
        simpl in Heq. lia.
    + assert (Hnd' : NoDup (acc ++ [r0])).
      { apply NoDup_app. split; [assumption|]. split; [|apply NoDup_singleton].
        intros x Hx Hx'. apply list_elem_of_singleton in Hx' as ->. contradiction. }
      assert (Hloc' : forall r, r ∈ acc ++ [r0] -> r ∈ LOCAL_ROLES).
      { intros r Hr. apply elem_of_app in Hr as [Hr | Hr]; [auto|].
        apply list_elem_of_singleton in Hr as ->.
        by destruct (role_mapping_local _ _ Hmap). }
      destruct (IH _ Hnd' Hloc') as (H1 & H2 & H3). split; [assumption|].
      split; [assumption|]. intros r. rewrite H3, elem_of_app, list_elem_of_singleton.
      split.
      * intros [[H | ->] | (k' & Hk' & Hm)]; [by left | |].
        -- right. exists k. split; [by apply elem_of_cons; left | assumption].
        -- right. exists k'. split; [by apply elem_of_cons; right | assumption].
      * intros [H | (k' & Hk' & Hm)]; [by left; left|].
        apply elem_of_cons in Hk' as [-> | Hk']; [|right; eauto].
        left. right. congruence.
Qed.

Lemma map_roles_fixed (l acc : list string) :
  NoDup (acc ++ l) ->
  (forall r, r ∈ l -> r ∈ LOCAL_ROLES) ->
  foldl add_local_role acc l = acc ++ l.
Proof.
  revert acc. induction l as [|r rest IH]; intros acc Hnd Hloc; simpl.
  - by rewrite app_nil_r.
  - assert (Hstep : add_local_role acc r = acc ++ [r]).
    { unfold add_local_role.
      rewrite (role_mapping_fixed r) by (apply Hloc; by apply elem_of_cons; left).
      assert (Hne : r <> ""%string).
      { intros ->. specialize (Hloc ""%string ltac:(by apply elem_of_cons; left)).
        unfold LOCAL_ROLES in Hloc. set_solver. }
      rewrite (bool_decide_false _ Hne). simpl.
      rewrite bool_decide_false; [reflexivity|].
      apply NoDup_app in Hnd as (_ & Hdisj & _). intros Hin.
      apply (Hdisj r Hin). by apply elem_of_cons; left. }
    rewrite Hstep. rewrite IH.
    + by rewrite <- app_assoc.
    + by rewrite <- app_assoc.
    + intros x Hx. apply Hloc. by apply elem_of_cons; right.
Qed.

(** [map_keycloak_roles_to_local] returns local role names only, each at
    most once: exactly those that some given role maps to, compared
    without regard to case.  Roles that map to nothing are dropped, and
    mapping the result again changes nothing. *)
Theorem map_keycloak_roles_to_local_spec (keycloak_roles : list string) :
  NoDup (map_keycloak_roles_to_local keycloak_roles)
  /\ (forall r, r ∈ map_keycloak_roles_to_local keycloak_roles
                <-> exists k, k ∈ keycloak_roles
                              /\ role_mapping !! lower k = Some r)
  /\ (forall r, r ∈ map_keycloak_roles_to_local keycloak_roles -> r ∈ LOCAL_ROLES)
  /\ (length (map_keycloak_roles_to_local keycloak_roles) <= 4)%nat
  /\ map_keycloak_roles_to_local (map_keycloak_roles_to_local keycloak_roles)
     = map_keycloak_roles_to_local keycloak_roles.
Proof.
  unfold map_keycloak_roles_to_local.
  destruct (map_roles_invariant keycloak_roles [] ltac:(constructor)
              ltac:(intros r Hr; by apply elem_of_nil in Hr)) as (Hnd & Hloc & Hiff).
  split; [assumption|]. split; [|split; [assumption|split]].
  - intros r. rewrite Hiff. split; [|auto].
    intros [H | H]; [by apply elem_of_nil in H | assumption].
  - change 4%nat with (length LOCAL_ROLES).
    apply submseteq_length, NoDup_submseteq; assumption.
  - apply (map_roles_fixed _ []); assumption.
Qed.

(** ** Lifetime of the tokens minted by the service *)

Lemma validate_exp_reached (payload : claims) (exp now : Z) :
  payload !! "exp"%string = Some (VNum exp) ->
  Z.quot exp MICROS * MICROS <= now ->
  jwt.validate_exp payload now = Raise (PyJWTError ExpiredSignatureError).
Proof.
  intros Hexp Hle. unfold jwt.validate_exp. rewrite Hexp. cbn [py_int].
  destruct (Z.leb_spec (Z.quot exp MICROS * MICROS) now); [reflexivity | lia].
Qed.

Lemma validate_token_Expired tok ty now :
  jwt.decode tok PUBLIC_KEY [ALGORITHM] TOKEN_AUDIENCE TOKEN_ISSUER true now
  = Raise (PyJWTError ExpiredSignatureError) ->
  JWTHandler.validate_token tok ty now = Raise (ValueError Expired).
Proof.
  intros Hdec. unfold JWTHandler.validate_token, JWTHandler.validate_token_body.
  by rewrite Hdec.
Qed.

Lemma access_payload_exp user_id email name roles expires_delta issued payload now v :
  jwt.decode
    (JWTHandler.generate_access_token user_id email name roles expires_delta issued)
    PUBLIC_KEY [ALGORITHM] TOKEN_AUDIENCE TOKEN_ISSUER v now = Return payload ->
  payload !! "exp"%string
  = Some (VNum (issued + lifetime_of ACCESS_TOKEN_EXPIRY expires_delta)).
Proof.
  intros Hdec. apply decode_Return_inv in Hdec as (j & [= <-] & -> & _).
  reflexivity.
Qed.

Lemma refresh_payload_exp user_id expires_delta issued payload now v :
  jwt.decode (JWTHandler.generate_refresh_token user_id expires_delta issued)
    PUBLIC_KEY [ALGORITHM] TOKEN_AUDIENCE TOKEN_ISSUER v now = Return payload ->
  payload !! "exp"%string
  = Some (VNum (issued + lifetime_of REFRESH_TOKEN_EXPIRY expires_delta)).
Proof.
  intros Hdec. apply decode_Return_inv in Hdec as (j & [= <-] & -> & _).
  reflexivity.
Qed.

(** From the instant it was issued, a token minted by the service is
    rejected with [Expired], whatever type is expected, as soon as the
    clock reaches its expiry truncated to whole seconds; a token issued
    with a lifetime of zero is already expired when it is issued. *)
Theorem minted_token_expires (user_id email name : string) (roles : list string)
    (expires_delta : option Z) (issued now : Z) (ty : string) :
  0 <= issued <= now ->
  (expiry_instant issued (lifetime_of ACCESS_TOKEN_EXPIRY expires_delta) <= now ->
   JWTHandler.validate_token
     (JWTHandler.generate_access_token user_id email name roles expires_delta issued)
     ty now = Raise (ValueError Expired))
  /\ (expiry_instant issued (lifetime_of REFRESH_TOKEN_EXPIRY expires_delta) <= now ->
      JWTHandler.validate_token
        (JWTHandler.generate_refresh_token user_id expires_delta issued)
        ty now = Raise (ValueError Expired))
  /\ JWTHandler.validate_token
       (JWTHandler.generate_access_token user_id email name roles (Some 0) issued)
       ty issued = Raise (ValueError Expired).
Proof.
  intros Hnow.
  assert (Hacc : forall delta t,
            0 <= issued <= t ->
            expiry_instant issued (lifetime_of ACCESS_TOKEN_EXPIRY delta) <= t ->
            JWTHandler.validate_token
              (JWTHandler.generate_access_token user_id email name roles delta issued)
              ty t = Raise (ValueError Expired)).
  { intros delta t Ht Hdead. apply validate_token_Expired.
    destruct (decode_access_token user_id email name roles delta issued t false Ht
                ltac:(discriminate)) as (payload & Hdec & _).
    apply (decode_expiry_failure _ _ _ _ Hdec).
    eapply validate_exp_reached; [by eapply access_payload_exp | exact Hdead]. }
  split; [|split].
  - by apply Hacc.
  - intros Hdead. apply validate_token_Expired.
    destruct (decode_refresh_token user_id expires_delta issued now false Hnow
                ltac:(discriminate)) as (payload & Hdec & _).
    apply (decode_expiry_failure _ _ _ _ Hdec).
    eapply validate_exp_reached; [by eapply refresh_payload_exp | exact Hdead].
  - apply Hacc; [lia|]. unfold expiry_instant, lifetime_of. simpl.
    rewrite Z.add_0_r. apply quot_micros_le. lia.
Qed.

(** The scenario of [test_validate_expired_token]. *)
Lemma minted_token_expires_witness :
  JWTHandler.validate_token
    (JWTHandler.generate_access_token "550e8400-e29b-41d4-a716-446655440000"
       "user@example.com" "Test User" ["admin"%string] (Some 0) 1771329600000000)
    "access" 1771329601000000
  = Raise (ValueError Expired).
Proof.
  apply (proj1 (minted_token_expires "550e8400-e29b-41d4-a716-446655440000"
                  "user@example.com" "Test User" ["admin"%string] (Some 0)
                  1771329600000000 1771329601000000 "access" ltac:(lia))).
  vm_compute. discriminate.
Defined.

(** ** Refresh tokens *)

Lemma validate_refresh_token user_id expires_delta issued now :
  0 <= issued <= now ->
  now < expiry_instant issued (lifetime_of REFRESH_TOKEN_EXPIRY expires_delta) ->
  JWTHandler.validate_token
    (JWTHandler.generate_refresh_token user_id expires_delta issued) "refresh" now
  = Return (Some (mkTokenData (VStr user_id) (VStr "") (VStr "") (VList []) "refresh")).
Proof.
  intros Hnow Hlive.
  destruct (decode_refresh_token user_id expires_delta issued now true Hnow
              (fun _ => Hlive)) as (payload & Hdec & Hty & Hsub).
  rewrite (validate_token_Return_intro _ _ _ _ Hdec Hty).
  rewrite bool_decide_true by reflexivity. by rewrite Hsub.
Qed.

Lemma validate_access_token user_id email name roles expires_delta issued now :
  0 <= issued <= now ->
  now < expiry_instant issued (lifetime_of ACCESS_TOKEN_EXPIRY expires_delta) ->
  JWTHandler.validate_token
    (JWTHandler.generate_access_token user_id email name roles expires_delta issued)
    "access" now
  = Return (Some (mkTokenData (VStr user_id) (VStr email) (VStr name)
                    (VList roles) "access")).
Proof.
  intros Hnow Hlive.
  destruct (decode_access_token user_id email name roles expires_delta issued now
              true Hnow (fun _ => Hlive))
    as (payload & Hdec & Hty & Hsub & Hemail & Hname & Hroles).
  rewrite (validate_token_Return_intro _ _ _ _ Hdec Hty).
  rewrite bool_decide_false by discriminate.
  by rewrite Hsub, Hemail, Hname, Hroles.
Qed.

(** A live refresh token validates, as a refresh token, to a principal
    that carries the subject it was issued for and nothing else: empty
    email and name and no roles. *)
Theorem refresh_token_roundtrip (user_id : string) (expires_delta : option Z)
    (issued now : Z) :
  0 <= issued <= now ->
  now < expiry_instant issued (lifetime_of REFRESH_TOKEN_EXPIRY expires_delta) ->
  JWTHandler.validate_token
    (JWTHandler.generate_refresh_token user_id expires_delta issued) "refresh" now
  = Return (Some (mkTokenData (VStr user_id) (VStr "") (VStr "") (VList []) "refresh")).
Proof. apply validate_refresh_token. Qed.

(** The scenario of [test_validate_valid_refresh_token]. *)
Lemma refresh_token_roundtrip_witness :
  JWTHandler.validate_token
    (JWTHandler.generate_refresh_token "550e8400-e29b-41d4-a716-446655440000" None
       1771329600000000) "refresh" 1771329600000000
  = Return (Some (mkTokenData (VStr "550e8400-e29b-41d4-a716-446655440000")
                    (VStr "") (VStr "") (VList []) "refresh")).
Proof.
  apply (refresh_token_roundtrip "550e8400-e29b-41d4-a716-446655440000" None
           1771329600000000 1771329600000000).
  - lia.
  - reflexivity.
Defined.

(** With a live refresh token issued for the supplied subject,
    [refresh_access_token] returns an access token that validates at once
    to the supplied subject, email, name and roles: the identity is
    rebound from the arguments, not read from the refresh token. *)
Theorem refresh_access_token_success (user_id email name : string)
    (roles : list string) (expires_delta : option Z) (issued now : Z) :
  0 <= issued <= now ->
  now < expiry_instant issued (lifetime_of REFRESH_TOKEN_EXPIRY expires_delta) ->
  exists access,
    JWTHandler.refresh_access_token
      (JWTHandler.generate_refresh_token user_id expires_delta issued)
      user_id email name roles now = Return access
    /\ JWTHandler.validate_token access "access" now
       = Return (Some (mkTokenData (VStr user_id) (VStr email) (VStr name)
                         (VList roles) "access")).
Proof.
  intros Hnow Hlive. eexists. split.
  - unfold JWTHandler.refresh_access_token.
    rewrite (validate_refresh_token _ _ _ _ Hnow Hlive). simpl.
    rewrite bool_decide_false; [reflexivity | auto].
  - apply validate_access_token; [lia|].
    apply default_lifetime_live; [lia | unfold ACCESS_TOKEN_EXPIRY; lia].
Qed.

(** The scenario of [test_refresh_access_token]. *)
Lemma refresh_access_token_success_witness :
  exists access,
    JWTHandler.refresh_access_token
      (JWTHandler.generate_refresh_token "550e8400-e29b-41d4-a716-446655440000" None
         1771329600000000)
      "550e8400-e29b-41d4-a716-446655440000" "user@example.com" "Test User"
      ["admin"; "reviewer"]%string 1771329600000000 = Return access
    /\ JWTHandler.validate_token access "access" 1771329600000000
       = Return (Some (mkTokenData (VStr "550e8400-e29b-41d4-a716-446655440000")
                         (VStr "user@example.com") (VStr "Test User")
                         (VList ["admin"; "reviewer"]%string) "access")).
Proof.
  apply (refresh_access_token_success "550e8400-e29b-41d4-a716-446655440000"
           "user@example.com" "Test User" ["admin"; "reviewer"]%string None
           1771329600000000 1771329600000000).
  - lia.
  - reflexivity.
Defined.

Lemma registered_claim_Raise_kinds (payload : claims) (now : Z) (s : string) e :
  jwt.validate_iat payload now = Raise e
  \/ jwt.validate_nbf payload now = Raise e
  \/ jwt.validate_exp payload now = Raise e
  \/ jwt.validate_iss payload s = Raise e
  \/ jwt.validate_aud payload s = Raise e ->
  (exists je, e = PyJWTError je) \/ e = TypeError.
Proof.
  unfold jwt.validate_iat, jwt.validate_nbf, jwt.validate_exp, jwt.validate_iss,
    jwt.validate_aud.
  intros [H | [H | [H | [H | H]]]]; revert H;
    repeat (match goal with
            | |- context [match ?x with _ => _ end] => destruct x
            end);
    intros [= <-]; eauto.
Qed.

(** [jwt.decode] fails with an exception of the library, or with a
    [TypeError] on a time claim that is not a number. *)
Lemma decode_Raise_kinds tok key algorithms audience issuer verify_exp now e :
  jwt.decode tok key algorithms audience issuer verify_exp now = Raise e ->
  (exists je, e = PyJWTError je) \/ e = TypeError.
Proof.
  unfold jwt.decode. destruct tok as [text|j]; [intros [= <-]; eauto|].
  destruct (negb (bool_decide _)); [intros [= <-]; eauto|].
  destruct (negb (jwt.verify_signature key j)); [intros [= <-]; eauto|].
  destruct (jwt.validate_iat (jwt.jws_payload j) now) as [[]|e1] eqn:H1; simpl;
    [|intros [= <-]; apply (registered_claim_Raise_kinds (jwt.jws_payload j) now issuer); tauto].
  destruct (jwt.validate_nbf (jwt.jws_payload j) now) as [[]|e2] eqn:H2; simpl;
    [|intros [= <-]; apply (registered_claim_Raise_kinds (jwt.jws_payload j) now issuer); tauto].
  assert (Hexp : forall e3,
            (if verify_exp then jwt.validate_exp (jwt.jws_payload j) now
             else Return tt) = Raise e3 ->
            (exists je, e3 = PyJWTError je) \/ e3 = TypeError).
  { destruct verify_exp; [|discriminate].
    intros e3 H3.
    apply (registered_claim_Raise_kinds (jwt.jws_payload j) now issuer); tauto. }
  destruct (if verify_exp then _ else _) as [[]|e3]; simpl;
    [|intros [= <-]; by apply Hexp].
  destruct (jwt.validate_iss (jwt.jws_payload j) issuer) as [[]|e4] eqn:H4; simpl;
    [|intros [= <-]; apply (registered_claim_Raise_kinds (jwt.jws_payload j) now issuer); tauto].
  destruct (jwt.validate_aud (jwt.jws_payload j) audience) as [[]|e5] eqn:H5; simpl;
    [discriminate|].
  intros [= <-].
  apply (registered_claim_Raise_kinds (jwt.jws_payload j) now audience); tauto.
Qed.

(** ** What validation never does *)

(** [validate_token] never returns [None] and never lets an exception of
    the token library through.  Hence the guards against [None] in its
    callers never fire: [refresh_access_token] never raises
    "Invalid refresh token" and [get_current_user] never answers
    "Invalid authentication credentials". *)
Theorem validate_token_all_or_nothing (tok : jwt.token) (ty : string) (now : Z) :
  JWTHandler.validate_token tok ty now <> Return None
  /\ (forall e, JWTHandler.validate_token tok ty now <> Raise (PyJWTError e))
  /\ (forall user_id email name roles,
        JWTHandler.refresh_access_token tok user_id email name roles now
        <> Raise (ValueError InvalidRefreshToken))
  /\ (forall env,
        get_current_user env tok now
        <> Raise (HTTPException HTTP_401_UNAUTHORIZED InvalidCredentials)).
Proof.
  assert (Hbody : forall t e,
            JWTHandler.validate_token_body tok t now = Raise e ->
            (exists je, e = PyJWTError je) \/ e = TypeError
            \/ exists exp got, e = ValueError (TypeMismatch exp got)).
  { intros t e. unfold JWTHandler.validate_token_body.
    destruct (jwt.decode tok PUBLIC_KEY [ALGORITHM] TOKEN_AUDIENCE TOKEN_ISSUER true now)
      as [payload|e0] eqn:Hdec; simpl.
    - case_bool_decide; [intros [= <-]; eauto|].
      case_bool_decide; discriminate.
    - intros [= <-]. apply decode_Raise_kinds in Hdec. tauto. }
  assert (Hnone : forall t, JWTHandler.validate_token tok t now <> Return None).
  { intros t H. apply validate_token_Return_inv in H as (_ & _ & _ & td & [=] & _). }
  assert (Hval : forall t e,
            JWTHandler.validate_token tok t now = Raise e ->
            e = TypeError \/ exists v, e = ValueError v /\ v <> InvalidRefreshToken).
  { intros t e. unfold JWTHandler.validate_token.
    destruct (JWTHandler.validate_token_body tok t now) as [r|e0] eqn:Hb;
      [discriminate|].
    apply Hbody in Hb as [[je ->] | [-> | (ex & got & ->)]].
    - destruct je; intros [= <-]; right; eexists; split; try reflexivity;
        discriminate.
    - intros [= <-]. by left.
    - intros [= <-]. right. eexists. split; [reflexivity | discriminate]. }
  split; [apply Hnone|]. split; [|split].
  - intros e H. apply Hval in H as [H | (v & H & _)]; discriminate.
  - intros user_id email name roles H.
    unfold JWTHandler.refresh_access_token in H.
    destruct (JWTHandler.validate_token tok "refresh" now) as [[td|]|e] eqn:Hv;
      simpl in H.
    + case_bool_decide; discriminate.
    + by apply Hnone in Hv.
    + injection H as ->. apply Hval in Hv as [Hv | (v & [= <-] & Hne)]; [discriminate|].
      contradiction.
  - intros env H. unfold get_current_user in H.
    destruct (IS_DEVELOPMENT env && _); [discriminate|].
    destruct (JWTHandler.validate_token tok "access" now) as [[td|]|e] eqn:Hv.
    + discriminate.
    + by apply Hnone in Hv.
    + apply Hval in Hv as [-> | (v & -> & _)]; discriminate.
Qed.

(** ** Remaining lifetime of the tokens minted by the service *)







(** ** [KeyCloakService.generate_app_tokens] *)



(** ** [KeyCloakService.extract_roles] *)

(** [extract_roles] returns what the payload holds at
    [resource_access.<client>.roles].  It returns the empty list when one
    of the three keys is missing and when [resource_access] or the entry
    of the client is not an object; a result other than the empty list
    always comes from that path. *)
Theorem extract_roles_spec (client_id : string) (payload : gmap string json) :
  (forall resource_access client_roles roles,
     payload !! "resource_access"%string = Some (JObj resource_access) ->
     resource_access !! client_id = Some (JObj client_roles) ->
     client_roles !! "roles"%string = Some roles ->
     KeyCloakService.extract_roles client_id payload = roles)
  /\ (payload !! "resource_access"%string = None ->
      KeyCloakService.extract_roles client_id payload = JArr [])
  /\ (forall v,
        payload !! "resource_access"%string = Some v ->
        (forall fields, v <> JObj fields) ->
        KeyCloakService.extract_roles client_id payload = JArr [])
  /\ (KeyCloakService.extract_roles client_id payload <> JArr [] ->
      exists resource_access client_roles,
        payload !! "resource_access"%string = Some (JObj resource_access)
        /\ resource_access !! client_id = Some (JObj client_roles)
        /\ client_roles !! "roles"%string
           = Some (KeyCloakService.extract_roles client_id payload)).
Proof.
  unfold KeyCloakService.extract_roles. split; [|split; [|split]].
  - intros ra cr roles -> Hra Hcr. simpl. rewrite Hra. simpl. by rewrite Hcr.
  - intros ->. reflexivity.
  - intros v -> Hv. simpl. destruct v; try reflexivity. by destruct (Hv fields).
  - destruct (payload !! "resource_access"%string) as [v|]; simpl;
      [|intros H; by destruct H].
    destruct v as [| | | | |ra]; simpl; try (intros H; by destruct H).
    destruct (ra !! client_id) as [c|] eqn:Hclient; simpl;
      [|intros H; by destruct H].
    destruct c as [| | | | |cr]; simpl; try (intros H; by destruct H).
    destruct (cr !! "roles"%string) as [roles|] eqn:Hroles; simpl;
      [|intros H; by destruct H].
    intros _. exists ra, cr. auto.
Qed.

Lemma extract_roles_spec_witness :
  KeyCloakService.extract_roles "test-client"
    {[ "resource_access"%string := JStr "none" ]} = JArr [].
Proof.
  apply (proj1 (proj2 (proj2 (extract_roles_spec "test-client"
           {[ "resource_access"%string := JStr "none" ]}))) (JStr "none")).
  - reflexivity.
  - discriminate.
Defined.

(** ** The base URL of the identity provider *)

Lemma endswith_app (a suffix : string) : endswith (a +:+ suffix) suffix = true.
Proof.
  induction a as [|c a IH].
  - change (EmptyString +:+ suffix) with suffix.
    destruct suffix; cbn [endswith]; by rewrite String.eqb_refl.
  - change (String c a +:+ suffix) with (String c (a +:+ suffix)).
    cbn [endswith]. rewrite IH. apply orb_true_r.
Qed.

Lemma endswith_empty (suffix : string) :
  endswith EmptyString suffix = true -> suffix = EmptyString.
Proof. destruct suffix; simpl; [reflexivity | discriminate]. Qed.

Lemma rstrip_keep (c : ascii) (s suffix : string) :
  suffix <> EmptyString ->
  rstrip c suffix = suffix ->
  endswith s suffix = true ->
  rstrip c s = s.
Proof.
  intros Hne Hsuf. induction s as [|a rest IH]; intros Hend.
  - by apply endswith_empty in Hend.
  - cbn [endswith] in Hend. apply orb_true_iff in Hend as [Heq | Hend].
    + apply String.eqb_eq in Heq. by rewrite Heq.
    + cbn [rstrip]. rewrite (IH Hend).
      destruct rest; [|reflexivity]. by apply endswith_empty in Hend.
Qed.

Lemma rstrip_app_char (c : ascii) (s : string) :
  rstrip c (s +:+ String c EmptyString) = rstrip c s.
Proof.
  induction s as [|a rest IH]; simpl.
  - by rewrite Ascii.eqb_refl.
  - by rewrite IH.
Qed.

Lemma endswith_auth_no_slash (s : string) :
  endswith s "/auth" = true -> endswith s "/" = false.
Proof.
  induction s as [|a rest IH]; intros Hend; [reflexivity|].
  cbn [endswith] in Hend. apply orb_true_iff in Hend as [Heq | Hend].
  - apply String.eqb_eq in Heq. by rewrite Heq.
  - cbn [endswith]. rewrite (IH Hend), orb_false_r.
    destruct rest; [by apply endswith_empty in Hend|].
    apply String.eqb_neq. congruence.
Qed.

(** The base URL computed from [KEYCLOAK_SERVER_URL] always ends with
    "/auth" and never with a slash; trailing slashes of the configured
    URL do not matter, and a URL that is already a base URL is kept as it
    is. *)
Theorem base_url_normalised (server_url : string) :
  endswith (KeyCloakService.base_url server_url) "/auth" = true
  /\ endswith (KeyCloakService.base_url server_url) "/" = false
  /\ KeyCloakService.base_url (server_url +:+ "/") = KeyCloakService.base_url server_url
  /\ KeyCloakService.base_url (KeyCloakService.base_url server_url)
     = KeyCloakService.base_url server_url.
Proof.
  assert (Hend : forall u, endswith (KeyCloakService.base_url u) "/auth" = true).
  { intros u. unfold KeyCloakService.base_url. cbv zeta.
    destruct (endswith (rstrip "/" u) "/auth") eqn:He; simpl;
      [assumption | apply endswith_app]. }
  split; [apply Hend|]. split; [apply endswith_auth_no_slash, Hend|]. split.
  - unfold KeyCloakService.base_url. by rewrite rstrip_app_char.
  - unfold KeyCloakService.base_url at 1. cbv zeta.
    rewrite (rstrip_keep "/" _ "/auth") by (discriminate || reflexivity || apply Hend).
    by rewrite Hend.
Qed.

(** ** Inheritance and the resolved set, exactly *)

Lemma get_inherited_permissions_elem (permissions : list string) (p : string) :
  p ∈ get_inherited_permissions permissions
  <-> p ∈ permissions
      \/ exists premise, (premise, p) ∈ INHERITANCE_RULES /\ premise ∈ permissions.
Proof.
  unfold get_inherited_permissions, INHERITANCE_RULES.
  assert (Hor : forall q : string,
            bool_decide (q ∈ (list_to_set permissions : gset string))
            || bool_decide (q ∈ permissions) = bool_decide (q ∈ permissions)).
  { intros q. apply eq_true_iff_eq. rewrite orb_true_iff, !bool_decide_eq_true.
    set_solver. }
  change "form:delete"%string with Permission.FORM_DELETE.
  change "user:manage_roles"%string with Permission.USER_MANAGE_ROLES.
  change "business_area:manage"%string with Permission.BUSINESS_AREA_MANAGE.
  rewrite !Hor. split.
  - intros Hp.
    repeat case_bool_decide; set_unfold; naive_solver.
  - intros [Hp | (premise & Hrule & Hprem)].
    + repeat case_bool_decide; set_solver.
    + set_unfold in Hrule.
      destruct Hrule as [[= -> ->] | [[= -> ->] | [[= -> ->] | []]]];
        rewrite (bool_decide_true _ Hprem); repeat case_bool_decide; set_solver.
Qed.

(** [get_inherited_permissions] returns the given permissions together
    with the conclusion of each of the three rules whose premise is
    given, and nothing else; applying it to its own result adds nothing,
    because no conclusion of a rule is the premise of another. *)
Theorem get_inherited_permissions_closure (permissions : list string) :
  (forall p,
     p ∈ get_inherited_permissions permissions
     <-> p ∈ permissions
         \/ exists premise,
              (premise, p) ∈ INHERITANCE_RULES /\ premise ∈ permissions)
  /\ get_inherited_permissions (elements (get_inherited_permissions permissions))
     = get_inherited_permissions permissions.
Proof.
  split; [apply get_inherited_permissions_elem|].
  apply set_eq. intros p.
  rewrite get_inherited_permissions_elem. setoid_rewrite elem_of_elements.
  setoid_rewrite get_inherited_permissions_elem. split; [|by left].
  intros [H | (premise & Hrule & [Hprem | (q & Hq & _)])]; [assumption | eauto |].
  exfalso. unfold INHERITANCE_RULES in *. set_unfold.
  destruct Hq as [[= _ ->] | [[= _ ->] | [[= _ ->] | []]]];
    destruct Hrule as [[=] | [[=] | [[=] | []]]].
Qed.

Lemma collect_elem db (l : list UserRole) (acc : gset string) (p : string) :
  p ∈ foldl (add_role_permissions db) acc l
  <-> p ∈ acc
      \/ exists ur role,
           ur ∈ l /\ role_of db ur = Some role /\ r_is_active role = true
           /\ r_deleted_at role = None /\ role_grants role p.
Proof.
  revert acc. induction l as [|ur l IH]; intros acc; simpl.
  - split; [auto|]. intros [H | (ur & _ & Hin & _)]; [assumption|].
    by apply elem_of_nil in Hin.
  - rewrite IH. rewrite add_role_permissions_union, elem_of_union.
    assert (Hone : p ∈ add_role_permissions db ∅ ur
                   <-> exists role, role_of db ur = Some role
                         /\ r_is_active role = true /\ r_deleted_at role = None
                         /\ role_grants role p).
    { unfold add_role_permissions, role_grants.
      destruct (role_of db ur) as [role|];
        [|split; [intros H; by apply not_elem_of_empty in H
                 | by intros (? & [=] & _)]].
      destruct (r_is_active role) eqn:Hact; simpl;
        [|split; [intros H; by apply not_elem_of_empty in H
                 | intros (? & [= <-] & ? & _); congruence]].
      destruct (r_deleted_at role) as [t|] eqn:Hdel; simpl.
      - split; [intros H; by apply not_elem_of_empty in H
               | intros (? & [= <-] & _ & ? & _); congruence].
      - split.
        + intros H. exists role. repeat split; try assumption.
          destruct (r_permissions role); set_solver.
        + intros (? & [= <-] & _ & _ & H).
          destruct (r_permissions role); set_solver. }
    rewrite Hone. split.
    + intros [[H | (role & H)] | (ur' & role & Hin & H)]; [by left | |].
      * right. exists ur, role. split; [by apply elem_of_cons; left | assumption].
      * right. exists ur', role. split; [by apply elem_of_cons; right | assumption].
    + intros [H | (ur' & role & Hin & H)]; [by left; left|].
      apply elem_of_cons in Hin as [-> | Hin]; [left; right; eauto|].
      right. eauto.
Qed.

(** The resolver returns exactly the permissions that an existing
    principal is granted directly, together with those they imply by the
    three inheritance rules.  Nothing else is ever resolved: a
    soft-deleted assignment, an inactive or soft-deleted role, and a
    principal missing from the store contribute nothing. *)
Theorem get_user_permissions_exact (user_id : value) (db : Session) (p : string) :
  p ∈ get_user_permissions user_id db
  <-> is_Some (first_user user_id db)
      /\ (directly_granted user_id db p
          \/ exists premise,
               (premise, p) ∈ INHERITANCE_RULES
               /\ directly_granted user_id db premise).
Proof.
  unfold get_user_permissions, directly_granted.
  destruct (first_user user_id db) as [u|].
  - rewrite get_inherited_permissions_elem. setoid_rewrite elem_of_elements.
    setoid_rewrite collect_elem. split.
    + intros H. split; [eauto|].
      destruct H as [[H | H] | (premise & Hrule & [H | H])].
      * by apply not_elem_of_empty in H.
      * by left.
      * by apply not_elem_of_empty in H.
      * right. eauto.
    + intros [_ [H | (premise & Hrule & H)]]; [left; by right|].
      right. exists premise. split; [assumption | by right].
  - split; [set_solver|]. by intros [[? [=]] _].
Qed.

(** ** Seeding the default roles *)









Lemma find_app_Some {A} (P : A -> bool) (l : list A) (x : A) :
  find P (l ++ [x])
  = match find P l with
    | Some r => Some r
    | None => if P x then Some x else None
    end.
Proof.
  induction l as [|a l IH]; simpl; [reflexivity|].
  destruct (P a); [reflexivity | exact IH].
Qed.

Lemma find_update_first_same select change rows :
  (forall r, select r = true -> select (change r) = true) ->
  find select (update_first select change rows) = change <$> find select rows.
Proof.
  intros Hkeep. induction rows as [|r rows IH]; simpl; [reflexivity|].
  destruct (select r) eqn:Hsel; simpl.
  - by rewrite (Hkeep r Hsel).
  - by rewrite Hsel.
Qed.

Lemma update_first_fixed select change rows r :
  find select rows = Some r -> change r = r ->
  update_first select change rows = rows.
Proof.
  induction rows as [|a rows IH]; simpl; [discriminate|].
  destruct (select a); [intros [= ->] ->; reflexivity|].
  intros Hf Hc. by rewrite (IH Hf Hc).
Qed.

Lemma find_update_first_other P select change rows :
  (forall r, select r = true -> P r = false /\ P (change r) = false) ->
  find P (update_first select change rows) = find P rows.
Proof.
  intros Hother. induction rows as [|r rows IH]; simpl; [reflexivity|].
  destruct (select r) eqn:Hsel; simpl.
  - destruct (Hother r Hsel) as [-> ->]. reflexivity.
  - by rewrite IH.
Qed.

Lemma existsb_update_first P select change rows :
  (forall r, P (change r) = P r) ->
  existsb P (update_first select change rows) = existsb P rows.
Proof.
  intros Hsame. induction rows as [|r rows IH]; simpl; [reflexivity|].
  destruct (select r); simpl; [by rewrite Hsame | by rewrite IH].
Qed.

Lemma live_named_configure role_name role_config r :
  live_named role_name (configure role_config r) = live_named role_name r.
Proof. reflexivity. Qed.

Lemma settled_after (rows : list RoleRow) (entry : string * RoleConfig) :
  settled (seeded_rows rows entry) entry.
Proof.
  unfold settled, seeded_rows.
  destruct (find (live_named entry.1) rows) as [r|] eqn:Hfind.
  - rewrite find_update_first_same by done. rewrite Hfind. reflexivity.
  - destruct (existsb (named entry.1) rows) eqn:Htaken.
    + by rewrite Hfind.
    + rewrite find_app_Some, Hfind. unfold live_named at 1. simpl.
      rewrite bool_decide_true by reflexivity. reflexivity.
Qed.

Lemma settled_preserved (rows : list RoleRow) (entry other : string * RoleConfig) :
  other.1 <> entry.1 ->
  settled rows entry -> settled (seeded_rows rows other) entry.
Proof.
  intros Hne. unfold settled, seeded_rows.
  assert (Hsel : forall r, live_named other.1 r = true ->
                 live_named entry.1 r = false
                 /\ live_named entry.1 (configure other.2 r) = false).
  { intros r Hr. rewrite live_named_configure. unfold live_named in *.
    apply andb_true_iff in Hr as [Hr _]. apply bool_decide_eq_true in Hr.
    rewrite bool_decide_false by congruence. auto. }
  destruct (find (live_named other.1) rows) as [r0|].
  - rewrite (find_update_first_other _ _ _ _ Hsel).
    by rewrite existsb_update_first by reflexivity.
  - destruct (existsb (named other.1) rows); [done|].
    assert (Hnew : forall id,
              named entry.1 (new_role_row id other.1 other.2) = false
              /\ live_named entry.1 (new_role_row id other.1 other.2) = false).
    { intros id. unfold live_named, named. simpl.
      by rewrite (bool_decide_false (other.1 = entry.1)) by assumption. }
    rewrite find_app_Some, existsb_app. cbn [existsb].
    destruct (Hnew (fresh_role_id rows)) as [-> ->].
    rewrite !orb_false_r. by destruct (find (live_named entry.1) rows).
Qed.

Lemma settled_fixed (rows : list RoleRow) (entry : string * RoleConfig) :
  settled rows entry -> seeded_rows rows entry = rows.
Proof.
  unfold settled, seeded_rows.
  destruct (find (live_named entry.1) rows) as [r|] eqn:Hfind.
  - intros Hc. by eapply update_first_fixed.
  - by intros ->.
Qed.

Lemma seed_role_no_faults results rows entry :
  exists status,
    seed_role results entry (mkRolesDb rows [])
    = (Return (seed_report results entry.1 status),
       mkRolesDb (seeded_rows rows entry) [])
    /\ (settled rows entry ->
        sr_created (seed_report results entry.1 status) = sr_created results).
Proof.
  destruct entry as [role_name role_config].
  unfold seed_role, seed_failure, seeded_rows, settled, named. simpl.
  destruct (find (live_named role_name) rows) as [r|].
  - exists (SeedUpdated (rr_id r)). split; reflexivity.
  - destruct (existsb (fun r => bool_decide (rr_name r = role_name)) rows).
    + exists SeedFailedIntegrity. split; reflexivity.
    + eexists (SeedCreated _ _). split; [reflexivity | discriminate].
Qed.

Lemma seed_roles_no_faults configs results rows :
  (seed_roles_from configs results (mkRolesDb rows [])).2
  = mkRolesDb (foldl seeded_rows rows configs) [].
Proof.
  revert results rows. induction configs as [|entry configs IH]; intros results rows;
    cbn [foldl seed_roles_from]; [reflexivity|].
  destruct (seed_role_no_faults results rows entry) as (status & -> & _).
  apply IH.
Qed.

Lemma seeded_rows_all_settled (configs : list (string * RoleConfig)) :
  NoDup configs.*1 ->
  forall (rows : list RoleRow) (done : list (string * RoleConfig)),
    (forall e, e ∈ done -> settled rows e /\ e.1 ∉ configs.*1) ->
    forall e, e ∈ done ++ configs -> settled (foldl seeded_rows rows configs) e.
Proof.
  induction configs as [|entry configs IH]; intros Hnd rows done Hdone e He; simpl.
  - rewrite app_nil_r in He. by apply Hdone.
  - apply NoDup_cons in Hnd as [Hfresh Hnd].
    apply (IH Hnd (seeded_rows rows entry) (done ++ [entry])).
    + intros e' He'. apply elem_of_app in He' as [He' | He'].
      * destruct (Hdone e' He') as [Hs Hn]. split.
        -- apply settled_preserved; [|assumption].
           intros Heq. apply Hn. rewrite <- Heq. simpl. by apply elem_of_cons; left.
        -- intros Hin. apply Hn. simpl. by apply elem_of_cons; right.
      * apply list_elem_of_singleton in He' as ->.
        split; [apply settled_after | assumption].
    + rewrite <- app_assoc. exact He.
Qed.

Lemma settled_run_fixed (configs : list (string * RoleConfig)) (results : SeedResults)
    (rows : list RoleRow) :
  (forall e, e ∈ configs -> settled rows e) ->
  exists results',
    seed_roles_from configs results (mkRolesDb rows [])
    = (Return results', mkRolesDb rows [])
    /\ sr_created results' = sr_created results.
Proof.
  revert results. induction configs as [|entry configs IH]; intros results Hall;
    cbn [seed_roles_from].
  - eauto.
  - assert (Hs : settled rows entry) by (apply Hall; by apply elem_of_cons; left).
    destruct (seed_role_no_faults results rows entry) as (status & -> & Hcreated).
    rewrite (settled_fixed _ _ Hs). rewrite <- (Hcreated Hs).
    apply IH. intros e He. apply Hall. by apply elem_of_cons; right.
Qed.

(** Seeding is idempotent: when no store operation fails, a second run of
    [seed_default_roles] returns, leaves the table as the first run left
    it and creates no role. *)
Theorem seed_default_roles_idempotent (rows : list RoleRow) :
  exists results,
    seed_default_roles (seed_default_roles (mkRolesDb rows [])).2
    = (Return results, (seed_default_roles (mkRolesDb rows [])).2)
    /\ sr_created results = 0%nat.
Proof.
  unfold seed_default_roles, seed_roles.
  rewrite seed_roles_no_faults.
  assert (Hall : forall e, e ∈ DEFAULT_ROLES ->
                   settled (foldl seeded_rows rows DEFAULT_ROLES) e).
  { intros e He.
    apply (seeded_rows_all_settled DEFAULT_ROLES) with (done := []); [| |exact He].
    - apply (bool_decide_unpack _). vm_compute. reflexivity.
    - intros e' He'. by apply elem_of_nil in He'. }
  destruct (settled_run_fixed DEFAULT_ROLES (mkSeedResults 0 0 0 [])
              (foldl seeded_rows rows DEFAULT_ROLES) Hall) as (results & Heq & Hcreated).
  exists results. split; [exact Heq | exact Hcreated].
Qed.

Lemma find_refine {A} (P Q : A -> bool) (l : list A) :
  (forall x, Q x = true -> P x = true) ->
  match find P l with
  | Some r => Q r = true -> find Q l = Some r
  | None => find Q l = None
  end.
Proof.
  intros Hsub. induction l as [|a l IH]; simpl; [reflexivity|].
  destruct (P a) eqn:HP.
  - by intros ->.
  - destruct (Q a) eqn:HQ; [by rewrite (Hsub a HQ) in HP | exact IH].
Qed.

Lemma elem_of_update_first select change rows x :
  x ∈ update_first select change rows ->
  x ∈ rows \/ exists r, r ∈ rows /\ x = change r.
Proof.
  induction rows as [|r rows IH]; simpl; [auto|].
  destruct (select r).
  - intros Hx. apply elem_of_cons in Hx as [-> | Hx].
    + right. exists r. split; [by apply elem_of_cons; left | reflexivity].
    + left. by apply elem_of_cons; right.
  - intros Hx. apply elem_of_cons in Hx as [-> | Hx].
    + left. by apply elem_of_cons; left.
    + destruct (IH Hx) as [H | (r' & Hr' & ->)].
      * left. by apply elem_of_cons; right.
      * right. exists r'. split; [by apply elem_of_cons; right | reflexivity].
Qed.

Lemma seeded_rows_live (rows : list RoleRow) (entry : string * RoleConfig) :
  (forall r, r ∈ rows -> rr_deleted_at r = None) ->
  forall r, r ∈ seeded_rows rows entry -> rr_deleted_at r = None.
Proof.
  intros Hlive r. unfold seeded_rows.
  destruct (find (live_named entry.1) rows).
  - intros Hr. apply elem_of_update_first in Hr as [Hr | (r' & Hr' & ->)];
      [by apply Hlive | simpl; by apply Hlive].
  - destruct (existsb (named entry.1) rows); [apply Hlive|].
    intros Hr. apply elem_of_app in Hr as [Hr | Hr]; [by apply Hlive|].
    by apply list_elem_of_singleton in Hr as ->.
Qed.

Lemma seeded_rows_all_live (configs : list (string * RoleConfig))
    (rows : list RoleRow) :
  (forall r, r ∈ rows -> rr_deleted_at r = None) ->
  forall r, r ∈ foldl seeded_rows rows configs -> rr_deleted_at r = None.
Proof.
  revert rows. induction configs as [|entry configs IH]; intros rows Hlive;
    cbn [foldl]; [assumption|].
  apply IH. by apply seeded_rows_live.
Qed.

(** After a run of [seed_default_roles] in which no store operation
    fails, each default role is either found by [get_role_by_name], as a
    live, active system role with the description and the permission
    list of [DEFAULT_ROLES] and listed by [get_all_system_roles], or it
    is not found because a soft-deleted row holds its name.  When the
    table had no soft-deleted row, every default role is found. *)
Theorem seeded_roles_retrievable (rows : list RoleRow) (role_name : string)
    (role_config : RoleConfig) :
  (role_name, role_config) ∈ DEFAULT_ROLES ->
  let db := (seed_default_roles (mkRolesDb rows [])).2 in
  ((exists r,
      get_role_by_name db role_name = Some r
      /\ seeded_as role_name role_config r
      /\ r ∈ get_all_system_roles db)
   \/ (get_role_by_name db role_name = None
       /\ exists r, r ∈ role_rows db /\ rr_name r = role_name
                    /\ is_Some (rr_deleted_at r)))
  /\ ((forall r, r ∈ rows -> rr_deleted_at r = None) ->
      exists r,
        get_role_by_name db role_name = Some r
        /\ seeded_as role_name role_config r).
Proof.
  intros Hin db.
  assert (Hdb : db = mkRolesDb (foldl seeded_rows rows DEFAULT_ROLES) []).
  { unfold db, seed_default_roles, seed_roles. apply seed_roles_no_faults. }
  assert (Hsys : rc_is_system role_config = true).
  { unfold DEFAULT_ROLES in Hin.
    repeat (apply elem_of_cons in Hin as [[= -> ->] | Hin]; [reflexivity|]).
    by apply elem_of_nil in Hin. }
  assert (Hset : settled (role_rows db) (role_name, role_config)).
  { rewrite Hdb. cbn [role_rows].
    apply (seeded_rows_all_settled DEFAULT_ROLES) with (done := []);
      [| |exact Hin].
    - apply (bool_decide_unpack _). vm_compute. reflexivity.
    - intros e' He'. by apply elem_of_nil in He'. }
  unfold settled in Hset. cbn [fst snd] in Hset.
  pose proof (find_refine (live_named role_name)
                (fun r => bool_decide (rr_name r = role_name) && rr_is_active r
                          && bool_decide (rr_deleted_at r = None))
                (role_rows db)) as Href.
  assert (Hsub : forall x,
            bool_decide (rr_name x = role_name) && rr_is_active x
            && bool_decide (rr_deleted_at x = None) = true ->
            live_named role_name x = true).
  { intros x Hx. unfold live_named.
    apply andb_true_iff in Hx as [Hx Hd]. apply andb_true_iff in Hx as [Hn _].
    by rewrite Hn, Hd. }
  specialize (Href Hsub).
  assert (Hfound : forall r,
            find (live_named role_name) (role_rows db) = Some r ->
            configure role_config r = r ->
            get_role_by_name db role_name = Some r
            /\ seeded_as role_name role_config r
            /\ r ∈ get_all_system_roles db).
  { intros r Hfind Hconf. rewrite Hfind in Href.
    apply find_some in Hfind as [Hmem Hlive].
    unfold live_named in Hlive. apply andb_true_iff in Hlive as [Hn Hd].
    apply bool_decide_eq_true in Hn. apply bool_decide_eq_true in Hd.
    assert (Has : seeded_as role_name role_config r).
    { unfold seeded_as. rewrite <- Hconf. simpl. by rewrite Hn, Hd. }
    destruct Has as (Hn' & Hdesc & Hperm & His & Hact & Hdel).
    split; [|split].
    - apply Href. rewrite Hact. rewrite !bool_decide_true by assumption. reflexivity.
    - done.
    - unfold get_all_system_roles. apply list_elem_of_In, filter_In.
      split; [assumption|]. rewrite His, Hsys, Hact.
      by rewrite bool_decide_true by assumption. }
  split.
  - destruct (find (live_named role_name) (role_rows db)) as [r|] eqn:Hfind.
    + left. exists r. exact (Hfound r eq_refl Hset).
    + right. split; [exact Href|].
      apply existsb_exists in Hset as (r & Hmem & Hn).
      unfold named in Hn. apply bool_decide_eq_true in Hn.
      exists r. split; [by apply list_elem_of_In|]. split; [assumption|].
      pose proof (find_none _ _ Hfind r Hmem) as Hnl. unfold live_named in Hnl.
      rewrite (bool_decide_true _ Hn) in Hnl. simpl in Hnl.
      apply bool_decide_eq_false in Hnl.
      destruct (rr_deleted_at r); [eauto | contradiction].
  - intros Hlive.
    destruct (find (live_named role_name) (role_rows db)) as [r|] eqn:Hfind.
    + exists r. destruct (Hfound r eq_refl Hset) as (H1 & H2 & _). auto.
    + exfalso. apply existsb_exists in Hset as (r & Hmem & Hn).
      pose proof (find_none _ _ Hfind r Hmem) as Hnl. unfold live_named in Hnl.
      unfold named in Hn. rewrite Hn in Hnl. simpl in Hnl.
      apply bool_decide_eq_false in Hnl. apply Hnl.
      apply (seeded_rows_all_live DEFAULT_ROLES rows Hlive).
      rewrite Hdb in Hmem. cbn [role_rows] in Hmem. by apply list_elem_of_In.
Qed.

(** Seeding an empty table: the administrator role is there. *)
Lemma seeded_roles_retrievable_witness :
  exists r,
    get_role_by_name (seed_default_roles (mkRolesDb [] [])).2 "admin" = Some r
    /\ seeded_as "admin"
         (mkRoleConfig "System administrator with full access" true ADMIN_PERMISSIONS) r.
Proof.
  apply (proj2 (seeded_roles_retrievable [] "admin"
                  (mkRoleConfig "System administrator with full access" true
                     ADMIN_PERMISSIONS)
                  ltac:(apply list_elem_of_here))).
  intros r Hr. inversion Hr.
Defined.

(** ** The life cycle of a form *)

Lemma live_form_Some db form_id form :
  live_form db form_id = Some form ->
  f_id form = form_id /\ f_deleted_at form = None.
Proof.
  unfold live_form. intros H. apply find_some in H as [_ H].
  apply andb_true_iff in H as [H1 H2].
  split; by eapply bool_decide_eq_true.
Qed.

Lemma find_update_form_row_same form_id change rows :
  (forall f, f_id (change f) = f_id f /\ f_deleted_at (change f) = f_deleted_at f) ->
  find (fun f => bool_decide (f_id f = form_id) && bool_decide (f_deleted_at f = None))
       (update_form_row form_id change rows)
  = change <$>
      find (fun f => bool_decide (f_id f = form_id)
                     && bool_decide (f_deleted_at f = None)) rows.
Proof.
  intros Hkeep. unfold update_form_row.
  induction rows as [|f rows IH]; simpl; [reflexivity|].
  destruct (decide (f_id f = form_id)) as [Hid | Hid].
  - rewrite (bool_decide_true _ Hid). destruct (Hkeep f) as [-> ->].
    rewrite (bool_decide_true _ Hid). simpl.
    destruct (bool_decide (f_deleted_at f = None)); [reflexivity | exact IH].
  - rewrite !(bool_decide_false _ Hid). simpl. exact IH.
Qed.

Lemma find_update_form_row_deleted form_id t rows :
  find (fun f => bool_decide (f_id f = form_id) && bool_decide (f_deleted_at f = None))
       (update_form_row form_id (with_deleted_at t) rows) = None.
Proof.
  unfold update_form_row. induction rows as [|f rows IH]; simpl; [reflexivity|].
  destruct (decide (f_id f = form_id)) as [Hid | Hid].
  - rewrite (bool_decide_true _ Hid). simpl. rewrite andb_false_r. exact IH.
  - rewrite !(bool_decide_false _ Hid). simpl. exact IH.
Qed.

Lemma find_update_form_row_other form_id other change rows :
  other <> form_id ->
  (forall f, f_id (change f) = f_id f) ->
  find (fun f => bool_decide (f_id f = other) && bool_decide (f_deleted_at f = None))
       (update_form_row form_id change rows)
  = find (fun f => bool_decide (f_id f = other)
                   && bool_decide (f_deleted_at f = None)) rows.
Proof.
  intros Hne Hkeep. unfold update_form_row.
  induction rows as [|f rows IH]; simpl; [reflexivity|].
  destruct (decide (f_id f = form_id)) as [Hid | Hid].
  - rewrite (bool_decide_true _ Hid), Hkeep.
    rewrite !(bool_decide_false (f_id f = other)) by congruence. simpl. exact IH.
  - rewrite (bool_decide_false _ Hid).
    destruct (bool_decide (f_id f = other) && _); [reflexivity | exact IH].
Qed.

Lemma commit_form_change_tables form_id change db db' :
  commit_form_change form_id change db = (Return tt, db') ->
  forms_table db' = update_form_row form_id change (forms_table db)
  /\ form_workflow db' = form_workflow db.
Proof.
  unfold commit_form_change.
  destruct (db_commit (forms_session db)) as [[[]|e] s]; intros [= <-]; auto.
Qed.

Lemma next_fault_true s s' : next_fault s = (true, s') -> true ∈ faults s.
Proof.
  unfold next_fault. destruct (faults s) as [|f rest]; intros [= <- <-].
  by left.
Qed.

(** What the query of [get_form_by_id] answers. *)
Lemma get_form_by_id_inv db form_id r db' :
  get_form_by_id db form_id = (r, db') ->
  forms_table db' = forms_table db
  /\ form_workflow db' = form_workflow db
  /\ (r = Return (live_form db form_id)
      \/ r = Raise (SQLAlchemyError OperationalError)
         /\ true ∈ faults (forms_session db)).
Proof.
  unfold get_form_by_id.
  destruct (next_fault (forms_session db)) as [[|] s] eqn:Hnf; intros [= <- <-];
    (split; [reflexivity|]); (split; [reflexivity|]); [right | by left].
  split; [reflexivity | by eapply next_fault_true].
Qed.

(** The three operations find nothing to act on when the form is not
    live. *)
Lemma hidden_form form_id db :
  live_form db form_id = None ->
  forall user_id,
    (forall now, found_nothing false db (delete_form form_id user_id now db))
    /\ found_nothing None db (archive_form form_id user_id db)
    /\ found_nothing None db (unarchive_form form_id user_id db).
Proof.
  intros Hnone user_id. unfold found_nothing, delete_form, archive_form, unarchive_form.
  destruct (get_form_by_id db form_id) as [r db0] eqn:Hget.
  apply get_form_by_id_inv in Hget as (Hforms & Hwf & [-> | [-> Hfault]]).
  - rewrite Hnone. cbn [fst snd]. auto 10.
  - cbn [fst snd]. repeat split; auto; intros Hno; contradiction.
Qed.

(** Soft deletion hides a form for good: once [delete_form] has returned
    [True], the form is no longer found, its row is still in the table,
    every other form is found as before, and deleting, archiving or
    unarchiving it again finds nothing to act on. *)
Theorem soft_delete_hides (form_id : string) (deleted_by_id : value) (now : Z)
    (db db' : FormsDb) :
  delete_form form_id deleted_by_id now db = (Return true, db') ->
  live_form db' form_id = None
  /\ length (forms_table db') = length (forms_table db)
  /\ (forall other, other <> form_id -> live_form db' other = live_form db other)
  /\ (forall user_id t,
        found_nothing false db' (delete_form form_id user_id t db'))
  /\ (forall user_id, found_nothing None db' (archive_form form_id user_id db'))
  /\ (forall user_id, found_nothing None db' (unarchive_form form_id user_id db')).
Proof.
  unfold delete_form at 1.
  destruct (get_form_by_id db form_id) as [r db0] eqn:Hget.
  apply get_form_by_id_inv in Hget as (Hforms0 & _ & Hr).
  destruct Hr as [-> | [-> _]]; [|discriminate].
  destruct (live_form db form_id) as [form|] eqn:Hlive; [|discriminate].
  destruct (live_form_Some _ _ _ Hlive) as [Hid _].
  destruct (commit_form_change (f_id form) (with_deleted_at now) db0)
    as [[[]|e] db1] eqn:Hcommit; [|discriminate].
  cbv zeta.
  destruct (audit_form _ _ _ _ _ db1) as [[[]|e] db2] eqn:Haudit; [|discriminate].
  intros [= Hdb'].
  apply commit_form_change_tables in Hcommit as [Hforms _].
  assert (Htable : forms_table db'
            = update_form_row form_id (with_deleted_at now) (forms_table db)).
  { rewrite <- Hdb'. unfold audit_form in Haudit.
    destruct (FormService._audit_log _ _ _ _ _ _ _) as [r s] in Haudit.
    injection Haudit as _ <-. cbn [forms_table]. by rewrite Hforms, Hforms0, Hid. }
  clear Hdb'.
  assert (Hnone : live_form db' form_id = None).
  { unfold live_form. rewrite Htable. apply find_update_form_row_deleted. }
  split; [exact Hnone|]. split.
  { rewrite Htable. unfold update_form_row. apply length_fmap. }
  split.
  { intros other Hne. unfold live_form. rewrite Htable.
    by apply find_update_form_row_other. }
  split; [|split]; intros user_id; try intros t;
    by apply (hidden_form form_id db' Hnone user_id).
Qed.

(** Deleting the draft of the fixtures. *)
Lemma soft_delete_hides_witness :
  live_form
    (delete_form "f0000000-0000-4000-8000-000000000001" (sub token_data_admin)
       1771329600000000 forms_fixture).2
    "f0000000-0000-4000-8000-000000000001" = None.
Proof.
  apply (soft_delete_hides "f0000000-0000-4000-8000-000000000001"
           (sub token_data_admin) 1771329600000000 forms_fixture
           (delete_form "f0000000-0000-4000-8000-000000000001" (sub token_data_admin)
              1771329600000000 forms_fixture).2).
  vm_compute. reflexivity.
Defined.

Lemma get_form_by_id_quiet db form_id :
  quiet (forms_session db) ->
  get_form_by_id db form_id = (Return (live_form db form_id), db).
Proof.
  intros [_ Hf]. unfold get_form_by_id, next_fault. rewrite Hf. by destruct db.
Qed.

Lemma db_refresh_quiet db : quiet (forms_session db) -> db_refresh db = (Return tt, db).
Proof.
  intros [_ Hf]. unfold db_refresh, next_fault. rewrite Hf. by destruct db.
Qed.

Lemma quiet_session_eta (s : Session) :
  quiet s ->
  mkSession (users s) (roles_table s) (user_roles s) (audit_log s) [] [] = s.
Proof. destruct s. intros [Hp Hf]. simpl in *. by subst. Qed.

Lemma db_commit_quiet (s : Session) : quiet s -> db_commit s = (Return tt, s).
Proof.
  intros Hq. pose proof (quiet_session_eta s Hq) as Heta. destruct Hq as [Hp Hf].
  unfold db_commit, next_fault. rewrite Hf, Hp. simpl.
  by rewrite app_nil_r, Hf, Heta.
Qed.

Lemma fk_user_ok_present (s : Session) (row : AuditLog) :
  is_Some (first_user (a_user_id row) s) -> fk_user_ok s row = true.
Proof.
  intros Hu. unfold fk_user_ok.
  destruct (a_user_id row); try reflexivity; by apply bool_decide_eq_true.
Qed.

Lemma audit_log_quiet entity_type entity_id action user_id old_values new_values s :
  quiet s ->
  FormService._audit_log entity_type entity_id action user_id old_values new_values s
  = (Return tt,
     if fk_user_ok s (mkAuditLog entity_type entity_id action user_id old_values
                        new_values)
     then with_audit_row s (mkAuditLog entity_type entity_id action user_id
                              old_values new_values)
     else s).
Proof.
  intros [Hp Hf]. destruct s as [us rt ur al pe fa]. simpl in Hp, Hf. subst pe fa.
  unfold FormService._audit_log, try_except, db_bind, db_add, db_commit, next_fault,
    with_audit_row, fk_user_ok, first_user.
  cbn [faults pending users roles_table user_roles audit_log app forallb a_user_id].
  destruct user_id as [|uid|n|l]; cbn [andb];
    try (destruct (bool_decide _)); reflexivity.
Qed.

Lemma commit_form_change_quiet form_id change db :
  quiet (forms_session db) ->
  commit_form_change form_id change db
  = (Return tt,
     mkFormsDb (update_form_row form_id change (forms_table db)) (form_workflow db)
       (forms_session db)).
Proof. intros Hq. unfold commit_form_change. by rewrite db_commit_quiet. Qed.

Lemma commit_workflow_quiet workflow db :
  quiet (forms_session db) ->
  commit_workflow workflow db
  = if bool_decide (is_Some (first_user (w_triggered_by_id workflow)
                               (forms_session db)))
    then (Return tt,
          mkFormsDb (forms_table db) (form_workflow db ++ [workflow])
            (forms_session db))
    else (Raise (SQLAlchemyError IntegrityError), db).
Proof.
  intros [Hp Hf]. destruct db as [forms wf [us rt ur al pe fa]].
  simpl in Hp, Hf. subst pe fa.
  unfold commit_workflow, next_fault.
  cbn [forms_session forms_table form_workflow faults pending users roles_table
       user_roles audit_log forallb].
  rewrite andb_true_r, app_nil_r.
  change (first_user ?u (mkSession us rt ur al [] []))
    with (find (user_matches u) us).
  by destruct (bool_decide _).
Qed.

Lemma quiet_with_audit_row s row : quiet s -> quiet (with_audit_row s row).
Proof. intros [Hp Hf]. split; [reflexivity | exact Hf]. Qed.

(** What a change of status does in a quiet session, for a principal that
    exists. *)
Lemma archive_form_quiet form_id user_id db form :
  live_form db form_id = Some form ->
  quiet (forms_session db) ->
  is_Some (first_user user_id (forms_session db)) ->
  archive_form form_id user_id db
  = (Return (Some (with_status "archived" form)),
     mkFormsDb (update_form_row form_id (with_status "archived") (forms_table db))
       (form_workflow db
        ++ [mkFormWorkflow form_id "archive" (f_status form) "archived" user_id])
       (with_audit_row (forms_session db)
          (status_audit_row form_id user_id (f_status form) "archived"))).
Proof.
  intros Hget Hq Hu. destruct (live_form_Some _ _ _ Hget) as [Hid _].
  unfold archive_form. rewrite get_form_by_id_quiet, Hget by assumption. cbv zeta.
  rewrite commit_form_change_quiet by assumption.
  rewrite db_refresh_quiet by assumption.
  rewrite commit_workflow_quiet by assumption.
  cbn [w_triggered_by_id forms_session]. rewrite (bool_decide_true _ Hu).
  unfold audit_form. cbn [forms_table form_workflow forms_session f_id with_status].
  rewrite audit_log_quiet by assumption.
  rewrite fk_user_ok_present by assumption. by rewrite Hid.
Qed.

Lemma unarchive_form_quiet form_id user_id db form :
  live_form db form_id = Some form ->
  f_status form = "archived"%string ->
  quiet (forms_session db) ->
  is_Some (first_user user_id (forms_session db)) ->
  unarchive_form form_id user_id db
  = (Return (Some (with_status "published" form)),
     mkFormsDb (update_form_row form_id (with_status "published") (forms_table db))
       (form_workflow db
        ++ [mkFormWorkflow form_id "unarchive" "archived" "published" user_id])
       (with_audit_row (forms_session db)
          (status_audit_row form_id user_id "archived" "published"))).
Proof.
  intros Hget Hst Hq Hu. destruct (live_form_Some _ _ _ Hget) as [Hid _].
  unfold unarchive_form. rewrite get_form_by_id_quiet, Hget by assumption.
  rewrite (bool_decide_true _ Hst). cbn [negb]. cbv zeta.
  rewrite commit_form_change_quiet by assumption.
  rewrite db_refresh_quiet by assumption.
  rewrite commit_workflow_quiet by assumption.
  cbn [w_triggered_by_id forms_session]. rewrite (bool_decide_true _ Hu).
  unfold audit_form. cbn [forms_table form_workflow forms_session f_id with_status].
  rewrite audit_log_quiet by assumption.
  rewrite fk_user_ok_present by assumption. by rewrite Hid, Hst.
Qed.

Lemma live_form_status db form_id form status wf s :
  live_form db form_id = Some form ->
  live_form
    (mkFormsDb (update_form_row form_id (with_status status) (forms_table db)) wf s)
    form_id
  = Some (with_status status form).
Proof.
  intros Hget. unfold live_form in *. cbn [forms_table].
  rewrite find_update_form_row_same by done. by rewrite Hget.
Qed.

(** Archiving a form and unarchiving it publishes it, whatever its status
    was: in a quiet session and for a principal that exists, both calls
    succeed, the form ends with the status "published", and the two
    transitions are recorded, each by one workflow row and one audit
    row. *)
Theorem archive_unarchive_publishes (form_id : string) (user_id : value)
    (db : FormsDb) (form : Form) :
  live_form db form_id = Some form ->
  quiet (forms_session db) ->
  is_Some (first_user user_id (forms_session db)) ->
  exists archived unarchived,
    archive_form form_id user_id db
    = (Return (Some (with_status "archived" form)), archived)
    /\ unarchive_form form_id user_id archived
       = (Return (Some (with_status "published" form)), unarchived)
    /\ live_form unarchived form_id = Some (with_status "published" form)
    /\ form_workflow unarchived
       = form_workflow db
         ++ [mkFormWorkflow form_id "archive" (f_status form) "archived" user_id;
             mkFormWorkflow form_id "unarchive" "archived" "published" user_id]
    /\ audit_log (forms_session unarchived)
       = audit_log (forms_session db)
         ++ [status_audit_row form_id user_id (f_status form) "archived";
             status_audit_row form_id user_id "archived" "published"].
Proof.
  intros Hget Hq Hu. eexists. eexists.
  split; [by apply archive_form_quiet|].
  pose proof (live_form_status db form_id form "archived"
                (form_workflow db
                 ++ [mkFormWorkflow form_id "archive" (f_status form) "archived"
                       user_id])
                (with_audit_row (forms_session db)
                   (status_audit_row form_id user_id (f_status form) "archived"))
                Hget) as Hget1.
  split.
  - rewrite (unarchive_form_quiet _ _ _ _ Hget1 eq_refl);
      [reflexivity | by apply quiet_with_audit_row | exact Hu].
  - split; [|split].
    + apply (live_form_status _ form_id (with_status "archived" form)
               "published" _ _ Hget1).
    + cbn [form_workflow]. by rewrite <- app_assoc.
    + cbn [forms_session with_audit_row audit_log]. by rewrite <- app_assoc.
Qed.

(** The draft of the fixtures ends up published. *)
Lemma archive_unarchive_publishes_witness :
  exists archived unarchived,
    archive_form "f0000000-0000-4000-8000-000000000001" (sub token_data_admin)
      forms_fixture
    = (Return (Some (with_status "archived" draft_form)), archived)
    /\ unarchive_form "f0000000-0000-4000-8000-000000000001" (sub token_data_admin)
         archived
       = (Return (Some (with_status "published" draft_form)), unarchived)
    /\ live_form unarchived "f0000000-0000-4000-8000-000000000001"
       = Some (with_status "published" draft_form)
    /\ form_workflow unarchived
       = form_workflow forms_fixture
         ++ [mkFormWorkflow "f0000000-0000-4000-8000-000000000001" "archive"
               (f_status draft_form) "archived" (sub token_data_admin);
             mkFormWorkflow "f0000000-0000-4000-8000-000000000001" "unarchive"
               "archived" "published" (sub token_data_admin)]
    /\ audit_log (forms_session unarchived)
       = audit_log (forms_session forms_fixture)
         ++ [status_audit_row "f0000000-0000-4000-8000-000000000001"
               (sub token_data_admin) (f_status draft_form) "archived";
             status_audit_row "f0000000-0000-4000-8000-000000000001"
               (sub token_data_admin) "archived" "published"].
Proof.
  apply (archive_unarchive_publishes "f0000000-0000-4000-8000-000000000001"
           (sub token_data_admin) forms_fixture draft_form).
  - vm_compute. reflexivity.
  - split; reflexivity.
  - eexists. vm_compute. reflexivity.
Defined.

(** Archiving commits the new status before it records the transition:
    when the acting principal is absent from the store, [archive_form]
    raises the integrity error of the workflow row, and the form is left
    archived with no workflow row and no audit row. *)
Theorem archive_by_unknown_principal (form_id : string) (user_id : value)
    (db : FormsDb) (form : Form) :
  live_form db form_id = Some form ->
  quiet (forms_session db) ->
  first_user user_id (forms_session db) = None ->
  exists db',
    archive_form form_id user_id db = (Raise (SQLAlchemyError IntegrityError), db')
    /\ live_form db' form_id = Some (with_status "archived" form)
    /\ form_workflow db' = form_workflow db
    /\ audit_log (forms_session db') = audit_log (forms_session db).
Proof.
  intros Hget Hq Hu. destruct (live_form_Some _ _ _ Hget) as [Hid _].
  eexists. split.
  - unfold archive_form. rewrite get_form_by_id_quiet, Hget by assumption. cbv zeta.
    rewrite commit_form_change_quiet by assumption.
    rewrite db_refresh_quiet by assumption.
    rewrite commit_workflow_quiet by assumption.
    cbn [w_triggered_by_id forms_session]. rewrite Hu.
    rewrite bool_decide_false by (by intros [? ?]). rewrite Hid. reflexivity.
  - split; [by apply live_form_status | split; reflexivity].
Qed.

Lemma archive_by_unknown_principal_witness :
  exists db',
    archive_form "f0000000-0000-4000-8000-000000000001"
      (VStr "00000000-0000-4000-8000-000000000000") forms_fixture
    = (Raise (SQLAlchemyError IntegrityError), db')
    /\ live_form db' "f0000000-0000-4000-8000-000000000001"
       = Some (with_status "archived" draft_form)
    /\ form_workflow db' = form_workflow forms_fixture
    /\ audit_log (forms_session db') = audit_log (forms_session forms_fixture).
Proof.
  apply (archive_by_unknown_principal "f0000000-0000-4000-8000-000000000001"
           (VStr "00000000-0000-4000-8000-000000000000") forms_fixture draft_form).
  - vm_compute. reflexivity.
  - split; reflexivity.
  - vm_compute. reflexivity.
Defined.

(** [delete_form] in a quiet session always hides the form and returns
    [True]; it leaves one audit row when the acting principal exists and
    none when the principal is absent from the store. *)
Theorem delete_form_audit (form_id : string) (user_id : value) (now : Z)
    (db : FormsDb) (form : Form) :
  live_form db form_id = Some form ->
  quiet (forms_session db) ->
  exists db',
    delete_form form_id user_id now db = (Return true, db')
    /\ forms_table db'
       = update_form_row form_id (with_deleted_at now) (forms_table db)
    /\ (is_Some (first_user user_id (forms_session db)) ->
        audit_log (forms_session db')
        = audit_log (forms_session db)
          ++ [mkAuditLog "forms" form_id "DELETE" user_id
                (Some {[ "status"%string := AStr (f_status form) ]})
                (Some {[ "deleted_at"%string := AJson (VNum now) ]})])
    /\ (user_id <> VNull -> first_user user_id (forms_session db) = None ->
        audit_log (forms_session db') = audit_log (forms_session db)).
Proof.
  intros Hget Hq. destruct (live_form_Some _ _ _ Hget) as [Hid _].
  eexists. split.
  - unfold delete_form. rewrite get_form_by_id_quiet, Hget by assumption.
    rewrite commit_form_change_quiet by assumption. cbv zeta.
    unfold audit_form. cbn [forms_table form_workflow forms_session f_id f_status
                              with_deleted_at].
    rewrite audit_log_quiet by assumption. rewrite Hid. reflexivity.
  - cbn [forms_table forms_session snd]. split; [reflexivity|]. split.
    + intros Hu. rewrite fk_user_ok_present by assumption. reflexivity.
    + intros Hnn Hu. rewrite fk_user_ok_absent; [reflexivity | exact Hnn | exact Hu].
Qed.

Lemma delete_form_audit_witness :
  exists db',
    delete_form "f0000000-0000-4000-8000-000000000001"
      (VStr "00000000-0000-4000-8000-000000000000") 1771329600000000 forms_fixture
    = (Return true, db')
    /\ audit_log (forms_session db') = audit_log (forms_session forms_fixture).
Proof.
  destruct (delete_form_audit "f0000000-0000-4000-8000-000000000001"
              (VStr "00000000-0000-4000-8000-000000000000") 1771329600000000
              forms_fixture draft_form)
    as (db' & Hdel & _ & _ & Habsent).
  - vm_compute. reflexivity.
  - split; reflexivity.
  - exists db'. split; [exact Hdel|]. apply Habsent; [discriminate|].
    vm_compute. reflexivity.
Defined.
